(** * g3_transcript: the request handlers of server.js

    A shallow embedding of the two server variants of the repository (the
    Resend variant and the nodemailer variant, both kept in src/server.js)
    and the properties of their upload, summary, rendering and dispatch
    paths.

    Conventions of the embedding.
    - A JavaScript value that reaches a handler comes out of a JSON body or
      of JSON.parse, so values are JSON values plus [undefined].
    - Numbers are integers ([Z]); fractional literals are outside the model.
    - Strings are Rocq strings (bytes); the model agrees with JavaScript on
      ASCII text.
    - A thrown exception or a rejected promise is [Throw]; an error event
      without a listener, which ends the Node process, is [Uncaught].  The
      texts of the TypeErrors are those of V8.
    - A response is the status and the object handed to [res.json]; what
      the handlers write to the console is left out.
    - Of the libraries, path.extname is written out as Node.js has it for
      POSIX paths; JSON.parse, the completion provider, the file system,
      csv-parser and the two mail services are parameters of the
      handlers. *)

From Stdlib Require Import String Ascii ZArith List Bool Lia DecimalString.
From Stdlib Require DecimalPos DecimalZ.
Import ListNotations.
Open Scope string_scope.
Open Scope Z_scope.

(** ** JavaScript values *)

Module Js.

#[warnings="-register-all"]
Inductive JsValue : Type :=
| JUndefined
| JNull
| JBool (b : bool)
| JNum (n : Z)
| JStr (s : string)
| JArr (l : list JsValue)
| JObj (l : list (string * JsValue)).

Record Error : Type := mkError { err_name : string; err_message : string }.

Inductive Result (A : Type) : Type :=
| Ok (a : A)
| Throw (e : Error)
| Uncaught (e : Error).
Arguments Ok {A} a.
Arguments Throw {A} e.
Arguments Uncaught {A} e.

Definition bind {A B} (r : Result A) (k : A -> Result B) : Result B :=
  match r with
  | Ok a => k a
  | Throw e => Throw e
  | Uncaught e => Uncaught e
  end.

Notation "x <- c ;; k" := (bind c (fun x => k))
  (at level 61, c at next level, right associativity).

(** What a call into a library or a provider comes back with: a value, or
    an exception (a rejection, for a promise). *)
Inductive Try (A : Type) : Type :=
| Returns (a : A)
| Raises (e : Error).
Arguments Returns {A} a.
Arguments Raises {A} e.

Definition run {A} (t : Try A) : Result A :=
  match t with
  | Returns a => Ok a
  | Raises e => Throw e
  end.

Fixpoint mapM {A B} (f : A -> Result B) (l : list A) : Result (list B) :=
  match l with
  | [] => Ok []
  | a :: l' => b <- f a ;; bs <- mapM f l' ;; Ok (b :: bs)
  end.

Definition TypeError (msg : string) : Error := mkError "TypeError" msg.
Definition SyntaxError (msg : string) : Error := mkError "SyntaxError" msg.

(** The double quote character, for the templates below. *)
Definition dq : string := String (ascii_of_nat 34) EmptyString.
Definition LF : ascii := ascii_of_nat 10.

Definition Z_to_string (n : Z) : string := NilZero.string_of_int (Z.to_int n).

Fixpoint join (sep : string) (l : list string) : string :=
  match l with
  | [] => ""
  | [s] => s
  | s :: l' => s ++ sep ++ join sep l'
  end.

(** ToString, as applied by template literals, Array.prototype.join and
    JSON.parse to their arguments. *)
Fixpoint ToString (v : JsValue) : string :=
  match v with
  | JUndefined => "undefined"
  | JNull => "null"
  | JBool true => "true"
  | JBool false => "false"
  | JNum n => Z_to_string n
  | JStr s => s
  | JArr l =>
      join "," (map (fun x => match x with
                              | JUndefined | JNull => ""
                              | _ => ToString x
                              end) l)
  | JObj _ => "[object Object]"
  end.

(** The element conversion of Array.prototype.join. *)
Definition join_elem (v : JsValue) : string :=
  match v with
  | JUndefined | JNull => ""
  | _ => ToString v
  end.

Definition Array_join (sep : string) (l : list JsValue) : string :=
  join sep (map join_elem l).

(** ToBoolean. *)
Definition truthy (v : JsValue) : bool :=
  match v with
  | JUndefined | JNull => false
  | JBool b => b
  | JNum n => negb (n =? 0)
  | JStr s => negb (String.eqb s "")
  | JArr _ | JObj _ => true
  end.

(** [a || b]. *)
Definition js_or (a b : JsValue) : JsValue := if truthy a then a else b.

Fixpoint lookup (k : string) (l : list (string * JsValue)) : option JsValue :=
  match l with
  | [] => None
  | (k', v) :: l' => if String.eqb k k' then Some v else lookup k l'
  end.

Definition typeof_name (v : JsValue) : string :=
  match v with
  | JUndefined => "undefined"
  | JNull => "null"
  | _ => "object"
  end.

Definition cannot_read (v : JsValue) (k : string) : Error :=
  TypeError ("Cannot read properties of " ++ typeof_name v
             ++ " (reading '" ++ k ++ "')").

(** [v.k] for the property names server.js reads.  None of them is a
    property of Object.prototype; the methods of arrays and strings are
    modelled where they are called. *)
Definition get_prop (v : JsValue) (k : string) : Result JsValue :=
  match v with
  | JUndefined | JNull => Throw (cannot_read v k)
  | JObj l => Ok (match lookup k l with Some x => x | None => JUndefined end)
  | JArr l =>
      Ok (if String.eqb k "length" then JNum (Z.of_nat (List.length l))
          else JUndefined)
  | JStr s =>
      Ok (if String.eqb k "length" then JNum (Z.of_nat (String.length s))
          else JUndefined)
  | JBool _ | JNum _ => Ok JUndefined
  end.

(** [v[i]] for a literal index. *)
Definition get_index (v : JsValue) (i : nat) : Result JsValue :=
  match v with
  | JUndefined | JNull => Throw (cannot_read v (Z_to_string (Z.of_nat i)))
  | JArr l => Ok (nth i l JUndefined)
  | JStr s =>
      Ok (match String.get i s with
          | Some c => JStr (String c EmptyString)
          | None => JUndefined
          end)
  | JObj l =>
      Ok (match lookup (Z_to_string (Z.of_nat i)) l with
          | Some x => x
          | None => JUndefined
          end)
  | JBool _ | JNum _ => Ok JUndefined
  end.

(** [s.replace(/\n/g, '<br>')] on a string. *)
Fixpoint replace_newlines (s : string) : string :=
  match s with
  | EmptyString => EmptyString
  | String c s' =>
      if Ascii.eqb c LF then "<br>" ++ replace_newlines s'
      else String c (replace_newlines s')
  end.

End Js.

(** ** Objects as ordered property lists, JSON.parse and object spread *)

Module Json.
Import Js.

Definition is_digit (c : ascii) : bool :=
  let n := nat_of_ascii c in (48 <=? n)%nat && (n <=? 57)%nat.

Definition digit_val (c : ascii) : Z := Z.of_nat (nat_of_ascii c) - 48.

Fixpoint all_digits (s : string) : bool :=
  match s with
  | EmptyString => true
  | String c s' => is_digit c && all_digits s'
  end.

Fixpoint digits_val (s : string) (acc : Z) : Z :=
  match s with
  | EmptyString => acc
  | String c s' => digits_val s' (10 * acc + digit_val c)
  end.

(** An array index: the canonical decimal form of an integer below
    2^32 - 1.  Own property keys list the array indices first, ascending,
    then the other keys in creation order. *)
Definition index_of_key (k : string) : option Z :=
  if negb (String.eqb k "") && all_digits k then
    let n := digits_val k 0 in
    if String.eqb (Z_to_string n) k && (n <? 4294967295) then Some n else None
  else None.

Fixpoint has_key (k : string) (l : list (string * JsValue)) : bool :=
  match l with
  | [] => false
  | (k', _) :: l' => String.eqb k k' || has_key k l'
  end.

Fixpoint replace_key (k : string) (v : JsValue) (l : list (string * JsValue))
  : list (string * JsValue) :=
  match l with
  | [] => []
  | (k', v') :: l' =>
      if String.eqb k k' then (k', v) :: l' else (k', v') :: replace_key k v l'
  end.

Fixpoint insert_index (n : Z) (k : string) (v : JsValue)
  (l : list (string * JsValue)) : list (string * JsValue) :=
  match l with
  | [] => [(k, v)]
  | (k', v') :: l' =>
      match index_of_key k' with
      | Some m => if m <? n then (k', v') :: insert_index n k v l'
                  else (k, v) :: l
      | None => (k, v) :: l
      end
  end.

(** CreateDataProperty on an ordinary object. *)
Definition obj_set (l : list (string * JsValue)) (k : string) (v : JsValue)
  : list (string * JsValue) :=
  if has_key k l then replace_key k v l
  else match index_of_key k with
       | Some n => insert_index n k v l
       | None => l ++ [(k, v)]
       end.

Fixpoint indexed (i : nat) (l : list JsValue) : list (string * JsValue) :=
  match l with
  | [] => []
  | v :: l' => (Z_to_string (Z.of_nat i), v) :: indexed (S i) l'
  end.

Fixpoint chars (s : string) : list JsValue :=
  match s with
  | EmptyString => []
  | String c s' => JStr (String c EmptyString) :: chars s'
  end.

(** The own enumerable properties a spread [...v] copies. *)
Definition own_props (v : JsValue) : list (string * JsValue) :=
  match v with
  | JObj l => l
  | JArr l => indexed 0 l
  | JStr s => indexed 0 (chars s)
  | JUndefined | JNull | JBool _ | JNum _ => []
  end.

(** [{ ...target, ...v }] on the property list of the target. *)
Definition spread (target : list (string * JsValue)) (v : JsValue)
  : list (string * JsValue) :=
  fold_left (fun acc kv => obj_set acc (fst kv) (snd kv)) (own_props v) target.

(** *** A parser for the integer fragment of JSON

    The grammar of JSON.parse with two restrictions: a number with a
    fraction or an exponent and a \u escape above U+007F are rejected.
    The handlers take the parser as a parameter; this one evaluates them on
    concrete documents. *)

Definition is_ws (c : ascii) : bool :=
  let n := nat_of_ascii c in
  (n =? 32)%nat || (n =? 9)%nat || (n =? 10)%nat || (n =? 13)%nat.

Fixpoint skip_ws (s : string) : string :=
  match s with
  | String c s' => if is_ws c then skip_ws s' else s
  | EmptyString => s
  end.

Fixpoint take_digits (s : string) (acc : Z) : Z * string :=
  match s with
  | String c s' => if is_digit c then take_digits s' (10 * acc + digit_val c)
                   else (acc, s)
  | EmptyString => (acc, s)
  end.

Definition starts_fraction (s : string) : bool :=
  match s with
  | String c _ => Ascii.eqb c "." || Ascii.eqb c "e" || Ascii.eqb c "E"
  | EmptyString => false
  end.

Definition parse_unsigned (s : string) : option (Z * string) :=
  match s with
  | String c s' =>
      if Ascii.eqb c "0" then
        if starts_fraction s' then None else Some (0, s')
      else if is_digit c then
        let '(n, r) := take_digits s 0 in
        if starts_fraction r then None else Some (n, r)
      else None
  | EmptyString => None
  end.

Definition parse_number (s : string) : option (Z * string) :=
  match s with
  | String c s' =>
      if Ascii.eqb c "-" then
        match parse_unsigned s' with
        | Some (n, r) => Some (- n, r)
        | None => None
        end
      else parse_unsigned s
  | EmptyString => None
  end.

Definition hex_val (c : ascii) : option nat :=
  let n := nat_of_ascii c in
  if (48 <=? n)%nat && (n <=? 57)%nat then Some (n - 48)%nat
  else if (65 <=? n)%nat && (n <=? 70)%nat then Some (n - 55)%nat
  else if (97 <=? n)%nat && (n <=? 102)%nat then Some (n - 87)%nat
  else None.

Definition hex4 (a b c d : ascii) : option nat :=
  match hex_val a, hex_val b, hex_val c, hex_val d with
  | Some x, Some y, Some z, Some w => Some (x * 4096 + y * 256 + z * 16 + w)%nat
  | _, _, _, _ => None
  end.

Definition simple_escape (e : ascii) : option ascii :=
  let n := nat_of_ascii e in
  if (n =? 34)%nat then Some (ascii_of_nat 34)
  else if (n =? 92)%nat then Some (ascii_of_nat 92)
  else if (n =? 47)%nat then Some (ascii_of_nat 47)
  else if Ascii.eqb e "b" then Some (ascii_of_nat 8)
  else if Ascii.eqb e "f" then Some (ascii_of_nat 12)
  else if Ascii.eqb e "n" then Some (ascii_of_nat 10)
  else if Ascii.eqb e "r" then Some (ascii_of_nat 13)
  else if Ascii.eqb e "t" then Some (ascii_of_nat 9)
  else None.

Definition cons_to (c : ascii) (r : option (string * string))
  : option (string * string) :=
  match r with
  | Some (t, rest) => Some (String c t, rest)
  | None => None
  end.

(** The characters of a string literal after its opening quote. *)
Fixpoint parse_string_body (s : string) : option (string * string) :=
  match s with
  | EmptyString => None
  | String c r =>
      if (nat_of_ascii c =? 34)%nat then Some (EmptyString, r)
      else if (nat_of_ascii c =? 92)%nat then
        match r with
        | String e r' =>
            if Ascii.eqb e "u" then
              match r' with
              | String h1 (String h2 (String h3 (String h4 r''))) =>
                  match hex4 h1 h2 h3 h4 with
                  | Some n =>
                      if (n <? 128)%nat
                      then cons_to (ascii_of_nat n) (parse_string_body r'')
                      else None
                  | None => None
                  end
              | _ => None
              end
            else
              match simple_escape e with
              | Some x => cons_to x (parse_string_body r')
              | None => None
              end
        | EmptyString => None
        end
      else if (nat_of_ascii c <? 32)%nat then None
      else cons_to c (parse_string_body r)
  end.

Definition expect (c : ascii) (s : string) : option string :=
  match s with
  | String c' r => if Ascii.eqb c c' then Some r else None
  | EmptyString => None
  end.

Definition strip_prefix (p s : string) : option string :=
  if String.prefix p s
  then Some (String.substring (String.length p)
               (String.length s - String.length p) s)
  else None.

Section Containers.
Variable parse_value : string -> option (JsValue * string).

(** The elements of an array after the first one has been announced. *)
Fixpoint parse_elements (n : nat) (s : string)
  : option (list JsValue * string) :=
  match n with
  | O => None
  | S n' =>
      match parse_value s with
      | None => None
      | Some (v, r) =>
          match skip_ws r with
          | String c r' =>
              if Ascii.eqb c "]" then Some ([v], r')
              else if Ascii.eqb c "," then
                match parse_elements n' r' with
                | Some (vs, r'') => Some (v :: vs, r'')
                | None => None
                end
              else None
          | EmptyString => None
          end
      end
  end.

Fixpoint parse_members (n : nat) (acc : list (string * JsValue)) (s : string)
  : option (list (string * JsValue) * string) :=
  match n with
  | O => None
  | S n' =>
      match expect (ascii_of_nat 34) (skip_ws s) with
      | None => None
      | Some r =>
          match parse_string_body r with
          | None => None
          | Some (k, r1) =>
              match expect ":" (skip_ws r1) with
              | None => None
              | Some r2 =>
                  match parse_value r2 with
                  | None => None
                  | Some (v, r3) =>
                      let acc' := obj_set acc k v in
                      match skip_ws r3 with
                      | String c r4 =>
                          if Ascii.eqb c "}" then Some (acc', r4)
                          else if Ascii.eqb c ","
                          then parse_members n' acc' r4
                          else None
                      | EmptyString => None
                      end
                  end
              end
          end
      end
  end.
End Containers.

Fixpoint parse_value (fuel : nat) (s : string) : option (JsValue * string) :=
  match fuel with
  | O => None
  | S f =>
      match skip_ws s with
      | EmptyString => None
      | String c r as s' =>
          if Ascii.eqb c "{" then
            match skip_ws r with
            | String c' r' =>
                if Ascii.eqb c' "}" then Some (JObj [], r')
                else match parse_members (parse_value f) (String.length r) [] r with
                     | Some (l, r'') => Some (JObj l, r'')
                     | None => None
                     end
            | EmptyString => None
            end
          else if Ascii.eqb c "[" then
            match skip_ws r with
            | String c' r' =>
                if Ascii.eqb c' "]" then Some (JArr [], r')
                else match parse_elements (parse_value f) (String.length r) r with
                     | Some (l, r'') => Some (JArr l, r'')
                     | None => None
                     end
            | EmptyString => None
            end
          else if (nat_of_ascii c =? 34)%nat then
            match parse_string_body r with
            | Some (t, r') => Some (JStr t, r')
            | None => None
            end
          else
            match strip_prefix "true" s', strip_prefix "false" s',
                  strip_prefix "null" s' with
            | Some r', _, _ => Some (JBool true, r')
            | _, Some r', _ => Some (JBool false, r')
            | _, _, Some r' => Some (JNull, r')
            | None, None, None =>
                match parse_number s' with
                | Some (n, r') => Some (JNum n, r')
                | None => None
                end
            end
      end
  end.

Definition unexpected : Error := SyntaxError "Unexpected token in JSON".

(** JSON.parse(v): the argument is converted to a string first. *)
Definition JSON_parse (v : JsValue) : Try JsValue :=
  let s := ToString v in
  match parse_value (S (String.length s)) s with
  | Some (x, rest) =>
      match skip_ws rest with
      | EmptyString => Returns x
      | String _ _ => Raises unexpected
      end
  | None => Raises unexpected
  end.

End Json.

(** ** path.extname (POSIX) and String.prototype.toLowerCase *)

Module Path.

Record ExtState : Type := mkExt {
  startDot : Z;
  startPart : Z;
  end_ : Z;
  matchedSlash : bool;
  preDotState : Z
}.

Definition ext_init : ExtState := mkExt (-1) 0 (-1) true 0.

Definition is_slash (c : ascii) : bool := Ascii.eqb c "/".
Definition is_dot (c : ascii) : bool := Ascii.eqb c ".".

(** One iteration of the loop on a character that is not a separator. *)
Definition ext_step (c : ascii) (i : Z) (st : ExtState) : ExtState :=
  let st1 :=
    if end_ st =? -1
    then mkExt (startDot st) (startPart st) (i + 1) false (preDotState st)
    else st in
  if is_dot c then
    if startDot st1 =? -1
    then mkExt i (startPart st1) (end_ st1) (matchedSlash st1) (preDotState st1)
    else if negb (preDotState st1 =? 1)
         then mkExt (startDot st1) (startPart st1) (end_ st1)
                    (matchedSlash st1) 1
         else st1
  else if negb (startDot st1 =? -1)
       then mkExt (startDot st1) (startPart st1) (end_ st1)
                  (matchedSlash st1) (-1)
       else st1.

(** The loop [for (i = path.length - 1; i >= 0; --i)], over the characters
    of the path from the last one; [i] is the index of the head. *)
Fixpoint ext_loop (rev_path : list ascii) (i : Z) (st : ExtState) : ExtState :=
  match rev_path with
  | [] => st
  | c :: rest =>
      if is_slash c then
        if negb (matchedSlash st)
        then mkExt (startDot st) (i + 1) (end_ st) (matchedSlash st)
                   (preDotState st)
        else ext_loop rest (i - 1) st
      else ext_loop rest (i - 1) (ext_step c i st)
  end.

Definition slice (s : string) (from to : Z) : string :=
  String.substring (Z.to_nat from) (Z.to_nat (to - from)) s.

Definition extname (path : string) : string :=
  let st := ext_loop (rev (list_ascii_of_string path))
                     (Z.of_nat (String.length path) - 1) ext_init in
  if (startDot st =? -1) || (end_ st =? -1) || (preDotState st =? 0)
     || ((preDotState st =? 1) && (startDot st =? end_ st - 1)
         && (startDot st =? startPart st + 1))
  then ""
  else slice path (startDot st) (end_ st).

Definition lower_char (c : ascii) : ascii :=
  let n := nat_of_ascii c in
  if (65 <=? n)%nat && (n <=? 90)%nat then ascii_of_nat (n + 32) else c.

Fixpoint toLowerCase (s : string) : string :=
  match s with
  | EmptyString => EmptyString
  | String c s' => String (lower_char c) (toLowerCase s')
  end.

End Path.

(** ** Responses *)

Module Http.
Import Js.

Record Response : Type := mkResponse { status : Z; body : JsValue }.

(** What a request ends in: a response, an error handed to the error
    middleware of Express, or the end of the process. *)
Inductive Outcome : Type :=
| Responded (r : Response)
| Rejected (e : Error)
| Crashed (e : Error).

(** [res.json(obj)] and [res.status(n).json(obj)]. *)
Definition res_json (obj : list (string * JsValue)) : Response :=
  mkResponse 200 (JObj obj).
Definition res_status_json (n : Z) (obj : list (string * JsValue)) : Response :=
  mkResponse n (JObj obj).

Definition failure (n : Z) (message : JsValue) : Response :=
  res_status_json n [("success", JBool false); ("error", message)].

(** [try { ... } catch (error) { res.status(500).json({ success: false,
    error: error.message }) }] around the body of a handler. *)
Definition try_catch (r : Result Response) : Outcome :=
  match r with
  | Ok resp => Responded resp
  | Throw e => Responded (failure 500 (JStr (err_message e)))
  | Uncaught e => Crashed e
  end.

(** [const { k, ... } = req.body], [k] the first property of the pattern. *)
Definition destructurable (k : string) (v : JsValue) : Result unit :=
  match v with
  | JUndefined | JNull =>
      Throw (TypeError ("Cannot destructure property '" ++ k
                        ++ "' of 'req.body' as it is " ++ typeof_name v ++ "."))
  | _ => Ok tt
  end.

End Http.

(** ** POST /upload (the same in both variants) *)

Module Upload.
Import Js Path Http.

(** A file object of multer. *)
Record File : Type := mkFile { originalname : string; path : string }.

(** The file system and the csv-parser stream, as the handler uses them. *)
Record Storage : Type := mkStorage {
  readFile : string -> Try string;
  csv : string -> Try (list JsValue)
}.

(** [parseCSV]: the listeners are on the csv stream that [pipe] returns, so
    an error of the csv stream rejects the promise and an error of the read
    stream has no listener. *)
Definition parseCSV (S : Storage) (filePath : string) : Result (list JsValue) :=
  match readFile S filePath with
  | Returns bytes => run (csv S bytes)
  | Raises e => Uncaught e
  end.

Definition processed (name type : string) (content : JsValue) : JsValue :=
  JObj [("name", JStr name); ("type", JStr type); ("content", content)].

(** The loop [for (const file of files)], with [processedFiles] as it grows. *)
Fixpoint process_files (S : Storage) (files : list File)
  (processedFiles : list JsValue) : Result (list JsValue) :=
  match files with
  | [] => Ok processedFiles
  | file :: rest =>
      let filePath := path file in
      let fileType := toLowerCase (extname (originalname file)) in
      if String.eqb fileType ".txt" then
        content <- run (readFile S filePath) ;;
        process_files S rest
          (processedFiles ++ [processed (originalname file) "transcript"
                                (JStr content)])
      else if String.eqb fileType ".csv" then
        contacts <- parseCSV S filePath ;;
        process_files S rest
          (processedFiles ++ [processed (originalname file) "contacts"
                                (JArr contacts)])
      else process_files S rest processedFiles
  end.

(** The handler; [req.files] is undefined when the request is not a
    multipart form. *)
Definition upload_handler (S : Storage) (files : option (list File)) : Outcome :=
  try_catch
    (match files with
     | None => Throw (TypeError "files is not iterable")
     | Some fs =>
         processedFiles <- process_files S fs [] ;;
         Ok (res_json [("success", JBool true); ("files", JArr processedFiles)])
     end).



End Upload.

(** ** POST /generate-summary *)

Module Summary.
Import Js Json Http.

Definition prompt_before : string :=
  "Please analyze the following meeting transcript and provide:
    1. An executive summary (2-3 paragraphs)
    2. A list of action items with assigned owners
    
    Meeting Transcript:
    ".

Definition prompt_after : string :=
  "
    
    Format the response as JSON with the following structure:
    {
      " ++ dq ++ "summary" ++ dq ++ ": " ++ dq ++ "executive summary text" ++ dq ++ ",
      " ++ dq ++ "actionItems" ++ dq ++ ": [
        {
          " ++ dq ++ "item" ++ dq ++ ": " ++ dq ++ "action item description" ++ dq ++ ",
          " ++ dq ++ "owner" ++ dq ++ ": " ++ dq ++ "person responsible" ++ dq ++ ",
          " ++ dq ++ "timeline" ++ dq ++ ": " ++ dq ++ "estimated timeline if mentioned" ++ dq ++ "
        }
      ]
    }".

Definition system_content_resend : string :=
  "You are a helpful assistant that analyzes meeting transcripts and creates concise summaries and action items. Always respond with valid JSON.".

Definition system_content_nodemailer : string :=
  "You are a helpful assistant that analyzes meeting transcripts and creates concise summaries and action items.".

Inductive Variant : Type := ResendVariant | NodemailerVariant.

Record Message : Type := mkMessage { role : string; content : string }.

Record ChatRequest : Type := mkChatRequest {
  model : string;
  messages : list Message;
  response_format : option string
}.

Definition prompt (transcript : JsValue) : string :=
  prompt_before ++ ToString transcript ++ prompt_after.

Definition chat_request (v : Variant) (transcript : JsValue) : ChatRequest :=
  match v with
  | ResendVariant =>
      mkChatRequest "gpt-3.5-turbo"
        [mkMessage "system" system_content_resend;
         mkMessage "user" (prompt transcript)]
        None
  | NodemailerVariant =>
      mkChatRequest "gpt-4-turbo"
        [mkMessage "system" system_content_nodemailer;
         mkMessage "user" (prompt transcript)]
        (Some "json_object")
  end.

Section Handler.
(** JSON.parse of the engine and the chat-completion call of the
    provider. *)
Variable parse : JsValue -> Try JsValue.
Variable openai_create : ChatRequest -> Try JsValue.

Definition summary_body (v : Variant) (req_body : JsValue) : Result Response :=
  _ <- destructurable "transcript" req_body ;;
  transcript <- get_prop req_body "transcript" ;;
  completion <- run (openai_create (chat_request v transcript)) ;;
  choices <- get_prop completion "choices" ;;
  choice <- get_index choices 0 ;;
  message <- get_prop choice "message" ;;
  text <- get_prop message "content" ;;
  result <- run (parse text) ;;
  Ok (res_json (spread [("success", JBool true)] result)).

Definition generate_summary (v : Variant) (req_body : JsValue) : Outcome :=
  try_catch (summary_body v req_body).
End Handler.

End Summary.

(** ** Mail, the delivery log and the effects of the dispatch handlers *)

Module Mailer.
Import Js Http.

Record Mail : Type := mkMail {
  mail_from : JsValue;
  mail_to : JsValue;
  subject : string;
  html : string
}.

(** The delivery calls issued so far and those the provider accepted, both
    in call order. *)
Record World : Type := mkWorld { issued : list Mail; delivered : list Mail }.

Definition Eff (A : Type) : Type := World -> Result A * World.

Definition ret {A} (a : A) : Eff A := fun w => (Ok a, w).

Definition lift {A} (r : Result A) : Eff A := fun w => (r, w).

Definition bindE {A B} (m : Eff A) (k : A -> Eff B) : Eff B :=
  fun w =>
    match m w with
    | (Ok a, w') => k a w'
    | (Throw e, w') => (Throw e, w')
    | (Uncaught e, w') => (Uncaught e, w')
    end.

Notation "x <~ c ;; k" := (bindE c (fun x => k))
  (at level 61, c at next level, right associativity).

Definition try_catchE (m : Eff Response) : World -> Outcome * World :=
  fun w => let (r, w') := m w in (try_catch r, w').

(** [process.env.NAME]. *)
Definition env_value (o : option string) : JsValue :=
  match o with
  | Some s => JStr s
  | None => JUndefined
  end.

Definition mail_subject : string := "Meeting Summary and Action Items".

End Mailer.

(** ** The parts of formatEmailContent that both variants share *)

Module Render.
Import Js.

Definition table_open : string :=
  "
        </div>
        
        <h2>Action Items</h2>
        <table style=" ++ dq ++ "width: 100%; border-collapse: collapse; margin-top: 10px;" ++ dq ++ ">
          <tr style=" ++ dq ++ "background-color: #e9e9e9;" ++ dq ++ ">
            <th style=" ++ dq ++ "padding: 10px; text-align: left; border: 1px solid #ddd;" ++ dq ++ ">Action Item</th>
            <th style=" ++ dq ++ "padding: 10px; text-align: left; border: 1px solid #ddd;" ++ dq ++ ">Owner</th>
            <th style=" ++ dq ++ "padding: 10px; text-align: left; border: 1px solid #ddd;" ++ dq ++ ">Timeline</th>
          </tr>".

Definition row_open : string :=
  "
          <tr>
            <td style=" ++ dq ++ "padding: 10px; border: 1px solid #ddd;" ++ dq ++ ">".

Definition row_mid1 : string :=
  "</td>
            <td style=" ++ dq ++ "padding: 10px; border: 1px solid #ddd;" ++ dq ++ ">".

Definition row_mid2 : string :=
  "</td>
            <td style=" ++ dq ++ "padding: 10px; border: 1px solid #ddd;" ++ dq ++ ">".

Definition row_close : string :=
  "</td>
          </tr>".

Definition table_close : string :=
  "
        </table>
      </body>
    </html>".

(** [summary.replace(/\n/g, '<br>')]. *)
Definition summary_replace (summary : JsValue) : Result string :=
  match summary with
  | JStr s => Ok (replace_newlines s)
  | JUndefined | JNull => Throw (cannot_read summary "replace")
  | _ => Throw (TypeError "summary.replace is not a function")
  end.

(** The template of one row. *)
Definition render_row (item : JsValue) : Result string :=
  a <- get_prop item "item" ;;
  b <- get_prop item "owner" ;;
  c <- get_prop item "timeline" ;;
  Ok (row_open ++ ToString a ++ row_mid1 ++ ToString b ++ row_mid2
      ++ ToString (js_or c (JStr "Not specified")) ++ row_close).

(** The callback of [forEach] applied to the items in turn, [html] growing
    by one row each time. *)
Fixpoint append_rows (items : list JsValue) (html : string) : Result string :=
  match items with
  | [] => Ok html
  | item :: rest => row <- render_row item ;; append_rows rest (html ++ row)
  end.

(** [actionItems.forEach(item => { html += ... })]. *)
Definition forEach_rows (actionItems : JsValue) (html : string) : Result string :=
  match actionItems with
  | JArr items => append_rows items html
  | JUndefined | JNull => Throw (cannot_read actionItems "forEach")
  | _ => Throw (TypeError "actionItems.forEach is not a function")
  end.

End Render.

(** ** The Resend variant: formatEmailContent and POST /send-emails *)

Module Resend.
Import Js Http Mailer Render.

Definition banner_open : string :=
  "
    <html>
      <body style=" ++ dq ++ "font-family: Arial, sans-serif; line-height: 1.6; color: #333;" ++ dq ++ ">
        <div style=" ++ dq ++ "background-color: #fffbcc; padding: 15px; border-radius: 5px; margin-bottom: 20px; border: 1px solid #f5e642;" ++ dq ++ ">
          <strong>📧 Intended Recipients:</strong> ".

Definition banner_close : string :=
  "<br>
          <em style=" ++ dq ++ "color: #666; font-size: 14px;" ++ dq ++ ">Note: This test email was sent only to markgleasonwork@gmail.com</em>
        </div>
        
        <h2>Meeting Summary</h2>
        <div style=" ++ dq ++ "background-color: #f4f4f4; padding: 15px; border-radius: 5px;" ++ dq ++ ">
          ".

Record Env : Type := mkEnv { RESEND_API_KEY : option string }.

(** The client object. *)
Record Client : Type := mkClient { apiKey : string }.


Record Reply : Type := mkReply { data : JsValue; error : JsValue }.

(** The delivery service behind [resend.emails.send]: its answer may depend
    on the key and on the calls made before. *)
Definition Provider : Type := string -> list Mail -> Mail -> Try Reply.

Definition emails_send (P : Provider) (c : Client) (m : Mail) : Eff Reply :=
  fun w =>
    let r := P (apiKey c) (issued w) m in
    (run r,
     mkWorld (issued w ++ [m])
       (match r with
        | Returns rep => if truthy (error rep) then delivered w
                         else delivered w ++ [m]
        | Raises _ => delivered w
        end)).

Section Renderer.
(** The comparison [StringToNumber(s) > 0] of the engine; it parses a
    floating-point literal and stays a parameter. *)
Variable StringToNumber_gt0 : string -> bool.

(** [v > 0]. *)
Definition gt_zero (v : JsValue) : bool :=
  match v with
  | JNum n => 0 <? n
  | JBool b => b
  | JUndefined | JNull => false
  | JStr s => StringToNumber_gt0 s
  | JArr _ => StringToNumber_gt0 (ToString v)
  | JObj _ => false
  end.

(** [typeof r === 'string' ? r : r.email || r]. *)
Definition recipient_display (r : JsValue) : Result JsValue :=
  match r with
  | JStr _ => Ok r
  | _ => e <- get_prop r "email" ;; Ok (js_or e r)
  end.

Definition recipientsList (recipients : JsValue) : Result string :=
  len <- get_prop recipients "length" ;;
  if gt_zero len then
    match recipients with
    | JArr l => shown <- mapM recipient_display l ;; Ok (Array_join ", " shown)
    | _ => Throw (TypeError "recipients.map is not a function")
    end
  else Ok "No recipients selected".

Definition formatEmailContent (summary actionItems recipients : JsValue)
  : Result string :=
  let recipients :=
    match recipients with JUndefined => JArr [] | _ => recipients end in
  listed <- recipientsList recipients ;;
  text <- summary_replace summary ;;
  let html := banner_open ++ listed ++ banner_close ++ text ++ table_open in
  html <- forEach_rows actionItems html ;;
  Ok (html ++ table_close).

Definition testEmail : string := "markgleasonwork@gmail.com".

Definition not_configured : string :=
  "Resend API key not configured. Please add RESEND_API_KEY to environment variables.".

Definition sent_message : string :=
  "Email sent to " ++ testEmail
  ++ " with intended recipients listed in the email body".

Definition test_mail (emailContent : string) : Mail :=
  mkMail (JStr "Meeting Transcript Utility <markgleasonwork@gmail.com>")
         (JStr testEmail) mail_subject emailContent.

Definition send_body (P : Provider) (resend : option Client)
  (req_body : JsValue) : Eff Response :=
  match resend with
  | None => ret (failure 500 (JStr not_configured))
  | Some client =>
      _ <~ lift (destructurable "recipients" req_body) ;;
      recipients <~ lift (get_prop req_body "recipients") ;;
      summary <~ lift (get_prop req_body "summary") ;;
      actionItems <~ lift (get_prop req_body "actionItems") ;;
      emailContent <~ lift (formatEmailContent summary actionItems recipients) ;;
      reply <~ emails_send P client (test_mail emailContent) ;;
      if truthy (error reply) then
        message <~ lift (get_prop (error reply) "message") ;;
        ret (failure 400 message)
      else
        ret (res_json [("success", JBool true);
                       ("message", JStr sent_message);
                       ("data", data reply)])
  end.

Definition send_emails (P : Provider) (resend : option Client)
  (req_body : JsValue) : World -> Outcome * World :=
  try_catchE (send_body P resend req_body).
End Renderer.

End Resend.

(** ** The nodemailer variant: formatEmailContent and POST /send-emails *)

Module Nodemailer.
Import Js Json Http Mailer Render.

Definition page_open : string :=
  "
    <html>
      <body style=" ++ dq ++ "font-family: Arial, sans-serif; line-height: 1.6; color: #333;" ++ dq ++ ">
        <h2>Meeting Summary</h2>
        <div style=" ++ dq ++ "background-color: #f4f4f4; padding: 15px; border-radius: 5px;" ++ dq ++ ">
          ".

Record Env : Type := mkEnv { EMAIL_FROM : option string }.

(** The SMTP transport behind [transporter.sendMail]: its answer may depend
    on the calls made before. *)
Definition Transport : Type := list Mail -> Mail -> Try JsValue.

Definition sendMail (T : Transport) (m : Mail) : Eff JsValue :=
  fun w =>
    let r := T (issued w) m in
    (run r,
     mkWorld (issued w ++ [m])
       (match r with
        | Returns _ => delivered w ++ [m]
        | Raises _ => delivered w
        end)).

Definition formatEmailContent (summary actionItems : JsValue) : Result string :=
  text <- summary_replace summary ;;
  let html := page_open ++ text ++ table_open in
  html <- forEach_rows actionItems html ;;
  Ok (html ++ table_close).

(** The values [for (const recipient of recipients)] goes through. *)
Definition iterate (recipients : JsValue) : Result (list JsValue) :=
  match recipients with
  | JArr l => Ok l
  | JStr s => Ok (chars s)
  | _ => Throw (TypeError "recipients is not iterable")
  end.

Definition mail_to_recipient (env : Env) (emailContent : string) (to : JsValue)
  : Mail :=
  mkMail (env_value (EMAIL_FROM env)) to mail_subject emailContent.

(** The body of the loop, one recipient after the other. *)
Fixpoint send_each (T : Transport) (env : Env) (emailContent : string)
  (recipients : list JsValue) : Eff unit :=
  match recipients with
  | [] => ret tt
  | recipient :: rest =>
      to <~ lift (get_prop recipient "email") ;;
      _ <~ sendMail T (mail_to_recipient env emailContent to) ;;
      send_each T env emailContent rest
  end.

Definition send_body (T : Transport) (env : Env) (req_body : JsValue)
  : Eff Response :=
  _ <~ lift (destructurable "recipients" req_body) ;;
  recipients <~ lift (get_prop req_body "recipients") ;;
  summary <~ lift (get_prop req_body "summary") ;;
  actionItems <~ lift (get_prop req_body "actionItems") ;;
  emailContent <~ lift (formatEmailContent summary actionItems) ;;
  each <~ lift (iterate recipients) ;;
  _ <~ send_each T env emailContent each ;;
  ret (res_json [("success", JBool true);
                 ("message", JStr "Emails sent successfully")]).

Definition send_emails (T : Transport) (env : Env) (req_body : JsValue)
  : World -> Outcome * World :=
  try_catchE (send_body T env req_body).

End Nodemailer.

(** ** The vocabulary of the specification *)

Module Spec.
Import Js Json Path Http Upload Mailer Render.

(** A value that is neither null nor undefined. *)
Definition defined (v : JsValue) : bool :=
  match v with
  | JUndefined | JNull => false
  | _ => true
  end.


Definition is_string (v : JsValue) : bool :=
  match v with
  | JStr _ => true
  | _ => false
  end.

Definition is_sequence (v : JsValue) : bool :=
  match v with
  | JArr _ => true
  | _ => false
  end.

(** The field of a record, when it has one of that name. *)
Definition field (v : JsValue) (k : string) : option JsValue :=
  match v with
  | JObj l => lookup k l
  | _ => None
  end.

(** The value of a property read that does not throw. *)
Definition prop (v : JsValue) (k : string) : JsValue :=
  match get_prop v k with
  | Ok x => x
  | Throw _ | Uncaught _ => JUndefined
  end.

(** A computation that throws a TypeError. *)
Definition type_error {A} (r : Result A) : Prop :=
  exists e, r = Throw e /\ err_name e = "TypeError".

(** *** File Intake *)

(** Two characters that are equal, or the same ASCII letter in two cases. *)
Definition same_letter (a b : ascii) : bool :=
  let x := nat_of_ascii a in
  let y := nat_of_ascii b in
  (x =? y)%nat
  || ((65 <=? x)%nat && (x <=? 90)%nat && (y =? x + 32)%nat)
  || ((65 <=? y)%nat && (y <=? 90)%nat && (x =? y + 32)%nat).

Fixpoint eq_ignore_case (s t : string) : bool :=
  match s, t with
  | EmptyString, EmptyString => true
  | String a s', String b t' => same_letter a b && eq_ignore_case s' t'
  | _, _ => false
  end.

(** A text without capital letters. *)
Definition no_capital (c : ascii) : bool :=
  let n := nat_of_ascii c in negb ((65 <=? n)%nat && (n <=? 90)%nat).

Fixpoint no_capitals (s : string) : bool :=
  match s with
  | EmptyString => true
  | String c s' => no_capital c && no_capitals s'
  end.

(** A character, and a text, without dot and without separator. *)
Definition plain_char (c : ascii) : bool := negb (is_slash c) && negb (is_dot c).

Definition plain (s : string) : bool :=
  forallb plain_char (list_ascii_of_string s).

Inductive Kind : Type := Transcript | ContactList.

Definition classify (name : string) : option Kind :=
  if eq_ignore_case (extname name) ".txt" then Some Transcript
  else if eq_ignore_case (extname name) ".csv" then Some ContactList
  else None.

(** A file of a recognised kind can be read back (and parsed, for a
    contact list). *)
Definition readable (S : Storage) (f : File) : bool :=
  match classify (originalname f) with
  | Some Transcript =>
      match readFile S (path f) with Returns _ => true | Raises _ => false end
  | Some ContactList =>
      match readFile S (path f) with
      | Returns bytes =>
          match csv S bytes with Returns _ => true | Raises _ => false end
      | Raises _ => false
      end
  | None => true
  end.

(** The entry File Intake returns for one file: none for a file of no
    recognised kind. *)
Definition intake_entry (S : Storage) (f : File) : list JsValue :=
  match classify (originalname f) with
  | Some Transcript =>
      match readFile S (path f) with
      | Returns text => [processed (originalname f) "transcript" (JStr text)]
      | Raises _ => []
      end
  | Some ContactList =>
      match readFile S (path f) with
      | Returns bytes =>
          match csv S bytes with
          | Returns rows => [processed (originalname f) "contacts" (JArr rows)]
          | Raises _ => []
          end
      | Raises _ => []
      end
  | None => []
  end.

Definition intake (S : Storage) (files : list File) : list JsValue :=
  flat_map (intake_entry S) files.

(** *** Email Renderer *)

(** The text of the item and owner cells: the text of the field, and the
    text of the missing value when the record has no such field. *)
Definition cell (item : JsValue) (k : string) : string :=
  match field item k with
  | Some v => ToString v
  | None => "undefined"
  end.

Definition timeline_cell (item : JsValue) : string :=
  match field item "timeline" with
  | Some v => if truthy v then ToString v else "Not specified"
  | None => "Not specified"
  end.

Definition table_row (item : JsValue) : string :=
  row_open ++ cell item "item" ++ row_mid1 ++ cell item "owner" ++ row_mid2
  ++ timeline_cell item ++ row_close.

Fixpoint table_rows (items : list JsValue) : string :=
  match items with
  | [] => ""
  | item :: rest => table_row item ++ table_rows rest
  end.




Definition nodemailer_page (summary : string) (items : list JsValue) : string :=
  Nodemailer.page_open ++ replace_newlines summary ++ table_open
  ++ table_rows items ++ table_close.

(** *** Summary Generator *)


(** *** Notification Dispatcher *)


(** The message of the direct mode for one recipient. *)
Definition direct_mail (env : Nodemailer.Env) (emailContent : string)
  (recipient : JsValue) : Mail :=
  Nodemailer.mail_to_recipient env emailContent (prop recipient "email").


(** A request body with the three fields of POST /send-emails. *)
Definition send_request (recipients summary actionItems : JsValue) : JsValue :=
  JObj [("recipients", recipients); ("summary", summary);
        ("actionItems", actionItems)].

End Spec.

(** ** Concrete inputs *)

Module Examples.
Import Js Json Path Http Upload Summary Mailer Render Spec.

Definition completion_with (text : JsValue) : JsValue :=
  JObj [("choices", JArr [JObj [("message", JObj [("content", text)])]])].

(** A provider whose completion text is the empty JSON object. *)
Definition empty_object_reply : ChatRequest -> Try JsValue :=
  fun _ => Returns (completion_with (JStr "{}")).

Definition hello_request : JsValue := JObj [("transcript", JStr "hello")].

Definition no_world : World := mkWorld [] [].

Definition never_gt0 : string -> bool := fun _ => false.

Definition alice : JsValue := JStr "alice@example.com".
Definition bob : JsValue := JObj [("name", JStr "Bob"); ("email", JStr "bob@example.com")].
Definition carol : JsValue := JObj [("name", JStr "Carol")].

Definition task : JsValue :=
  JObj [("item", JStr "Send the minutes"); ("owner", JStr "Bob")].

Definition accepting : Nodemailer.Transport := fun _ _ => Returns JNull.


Definition sender : Nodemailer.Env := Nodemailer.mkEnv (Some "notes@example.com").

Definition resend_ok : Resend.Provider :=
  fun _ _ _ => Returns (Resend.mkReply (JObj [("id", JStr "1")]) JNull).

Definition disk : Storage :=
  mkStorage
    (fun p => if String.eqb p "uploads/1-notes.TXT" then Returns "Hi all"
              else if String.eqb p "uploads/2-team.csv"
              then Returns "name,email"
              else Raises (mkError "Error" "ENOENT"))
    (fun _ => Returns []).


End Examples.

(** ** The disk storage of multer *)

Module DiskStorage.
Import Js.

(** The [filename] callback, [Date.now() + '-' + file.originalname]; the
    clock reads a count of milliseconds. *)
Definition filename (now : Z) (originalname : string) : string :=
  Z_to_string now ++ "-" ++ originalname.

End DiskStorage.

(** ** More vocabulary, for the properties beyond the specification *)

Module Shape.
Import Js Json Path Http Upload Mailer Render Spec.

(** The text has a line feed. *)
Fixpoint has_LF (s : string) : bool :=
  match s with
  | EmptyString => false
  | String c s' => Ascii.eqb c LF || has_LF s'
  end.

(** The text has a dot. *)
Definition has_dot (s : string) : bool :=
  existsb is_dot (list_ascii_of_string s).

(** [completion.choices[0].message.content]. *)
Definition completion_text (completion : JsValue) : Result JsValue :=
  choices <- get_prop completion "choices" ;;
  choice <- get_index choices 0 ;;
  message <- get_prop choice "message" ;;
  get_prop message "content".

(** The property a parsed object ends up with for a key: the last one
    written. *)
Definition last_binding (k : string) (l : list (string * JsValue))
  : option JsValue :=
  lookup k (rev l).


(** A failure of File Intake on one file that the handler catches: the
    text of a transcript cannot be read, or the csv stream reports an
    error. *)
Definition caught_failure (S : Storage) (f : File) : option Error :=
  match classify (originalname f) with
  | Some Transcript =>
      match readFile S (path f) with
      | Returns _ => None
      | Raises e => Some e
      end
  | Some ContactList =>
      match readFile S (path f) with
      | Returns bytes =>
          match csv S bytes with
          | Returns _ => None
          | Raises e => Some e
          end
      | Raises _ => None
      end
  | None => None
  end.

(** The read stream of a contact list reports an error. *)
Definition stream_failure (S : Storage) (f : File) : option Error :=
  match classify (originalname f) with
  | Some ContactList =>
      match readFile S (path f) with
      | Returns _ => None
      | Raises e => Some e
      end
  | _ => None
  end.

(** A structured answer: the status and the [success] flag agree. *)
Definition structured (r : Response) : bool :=
  match field (body r) "success" with
  | Some (JBool true) => status r =? 200
  | Some (JBool false) => (status r =? 400) || (status r =? 500)
  | _ => false
  end.

Definition is_responded (o : Outcome) : bool :=
  match o with
  | Responded r => structured r
  | Rejected _ | Crashed _ => false
  end.

(** A disk on which nothing can be read. *)
Definition broken_disk : Storage :=
  mkStorage (fun _ => Raises (mkError "Error" "EIO")) (fun _ => Returns []).

(** A transport that accepts the first message and refuses the others. *)
Definition one_then_down : Nodemailer.Transport :=
  fun history _ =>
    match history with
    | [] => Returns JNull
    | _ :: _ => Raises (mkError "Error" "Connection closed")
    end.

End Shape.

(** * Properties *)

Import Js Json Path Http Upload Summary Mailer Render Spec Examples.
Import DiskStorage Shape.

#[global] Opaque table_open row_open row_mid1 row_mid2 row_close table_close.
#[global] Opaque Resend.banner_open Resend.banner_close Nodemailer.page_open.
#[global] Opaque prompt_before prompt_after.

(** Case analysis on the comparisons of character codes in the goal. *)
Ltac decide_codes :=
  repeat match goal with
         | |- context [(?a =? ?b)%nat] => destruct (Nat.eqb_spec a b)
         | |- context [(?a <=? ?b)%nat] => destruct (Nat.leb_spec a b)
         end;
  cbn; intros; try reflexivity; try discriminate; try lia.

(** ** Strings *)

Lemma append_assoc (a b c : string) : (a ++ b) ++ c = a ++ (b ++ c).
Proof.
  induction a as [|x a IH]; simpl.
  - reflexivity.
  - now rewrite IH.
Qed.


(** ** Summary Generator *)

Section SummaryFacts.
Variable parse : JsValue -> Try JsValue.
Variable openai_create : ChatRequest -> Try JsValue.

End SummaryFacts.



(** ** Configuration of the Resend variant *)



(** ** Email Renderer *)

Lemma get_prop_cases (v : JsValue) (k : string) :
  (exists x, get_prop v k = Ok x) \/ type_error (get_prop v k).
Proof.
  destruct v; simpl; eauto; right; eexists; split; reflexivity.
Qed.

Lemma get_prop_defined (v : JsValue) (k : string) :
  defined v = true -> exists x, get_prop v k = Ok x.
Proof.
  destruct v; simpl; intros H; try discriminate; eauto.
Qed.




Lemma render_row_cases (item : JsValue) :
  (exists x, render_row item = Ok x) \/ type_error (render_row item).
Proof.
  unfold render_row.
  destruct item; simpl; eauto; right; eexists; split; reflexivity.
Qed.

Lemma append_rows_cases (items : list JsValue) :
  forall html,
    (exists x, append_rows items html = Ok x)
    \/ type_error (append_rows items html).
Proof.
  induction items as [|item rest IH]; simpl; intros html.
  - eauto.
  - destruct (render_row_cases item) as [[x E]|(e & E & N)]; rewrite E; simpl.
    + apply IH.
    + right. now exists e.
Qed.

Lemma forEach_rows_not_sequence (actionItems : JsValue) (html : string) :
  is_sequence actionItems = false -> type_error (forEach_rows actionItems html).
Proof.
  destruct actionItems; simpl; intros H; try discriminate;
    eexists; split; reflexivity.
Qed.

Lemma summary_replace_not_string (summary : JsValue) :
  is_string summary = false -> type_error (summary_replace summary).
Proof.
  destruct summary; simpl; intros H; try discriminate;
    eexists; split; reflexivity.
Qed.

Lemma summary_replace_cases (summary : JsValue) :
  (exists x, summary_replace summary = Ok x)
  \/ type_error (summary_replace summary).
Proof.
  destruct summary; simpl; eauto; right; eexists; split; reflexivity.
Qed.

Lemma recipient_display_cases (r : JsValue) :
  (exists x, Resend.recipient_display r = Ok x)
  \/ type_error (Resend.recipient_display r).
Proof.
  destruct r; simpl; eauto; right; eexists; split; reflexivity.
Qed.

Lemma mapM_display_cases (l : list JsValue) :
  (exists x, mapM Resend.recipient_display l = Ok x)
  \/ type_error (mapM Resend.recipient_display l).
Proof.
  induction l as [|r l IH]; simpl.
  - eauto.
  - destruct (recipient_display_cases r) as [[x E]|(e & E & N)];
      rewrite E; simpl.
    + destruct IH as [[y E']|(e & E' & N)]; rewrite E'; simpl; eauto.
      right. now exists e.
    + right. now exists e.
Qed.

Lemma recipientsList_cases (gt0 : string -> bool) (recipients : JsValue) :
  (exists x, Resend.recipientsList gt0 recipients = Ok x)
  \/ type_error (Resend.recipientsList gt0 recipients).
Proof.
  unfold Resend.recipientsList.
  destruct (get_prop_cases recipients "length") as [[len E]|(e & E & N)];
    rewrite E; simpl.
  - destruct (Resend.gt_zero gt0 len); [|eauto].
    destruct recipients;
      try (right; eexists; split; reflexivity).
    destruct (mapM_display_cases l) as [[y E']|(e & E' & N)];
      rewrite E'; simpl; eauto.
    right. now exists e.
  - right. now exists e.
Qed.

(** C10: the renderer of either variant throws a TypeError instead of
    returning a document whenever the summary is not a string or the
    action items are not an array (absent included), whatever the
    recipients are; an absent recipients argument is the one that is
    replaced by a default, the empty list. *)
Theorem renderer_not_total :
  forall (gt0 : string -> bool) (summary actionItems recipients : JsValue),
    is_string summary = false \/ is_sequence actionItems = false ->
    type_error (Resend.formatEmailContent gt0 summary actionItems recipients)
    /\ type_error (Nodemailer.formatEmailContent summary actionItems)
    /\ Resend.formatEmailContent gt0 summary actionItems JUndefined
       = Resend.formatEmailContent gt0 summary actionItems (JArr []).
Proof.
  intros gt0 summary actionItems recipients H.
  assert (K : forall html,
             type_error (text <- summary_replace summary ;;
                         html' <- forEach_rows actionItems (html text) ;;
                         Ok (html' ++ table_close))).
  { intros html.
    destruct (summary_replace_cases summary) as [[x E]|(e & E & N)];
      rewrite E; simpl.
    - destruct H as [H|H].
      + destruct (summary_replace_not_string summary H) as (e & E' & _).
        congruence.
      + destruct (forEach_rows_not_sequence actionItems (html x) H)
          as (e & E' & N).
        rewrite E'. simpl. now exists e.
    - now exists e. }
  repeat split.
  - unfold Resend.formatEmailContent.
    destruct (recipientsList_cases gt0
                match recipients with JUndefined => JArr [] | _ => recipients end)
      as [[x E]|(e & E & N)]; rewrite E; simpl.
    + apply (K (fun text => Resend.banner_open ++ x ++ Resend.banner_close
                            ++ text ++ table_open)).
    + now exists e.
  - apply (K (fun text => Nodemailer.page_open ++ text ++ table_open)).
Qed.

Lemma renderer_not_total_witness :
  type_error (Resend.formatEmailContent never_gt0 (JNum 7) JUndefined
                (JArr [alice]))
  /\ type_error (Nodemailer.formatEmailContent (JNum 7) JUndefined)
  /\ Resend.formatEmailContent never_gt0 (JNum 7) JUndefined JUndefined
     = Resend.formatEmailContent never_gt0 (JNum 7) JUndefined (JArr []).
Proof.
  apply (renderer_not_total never_gt0 (JNum 7) JUndefined (JArr [alice])).
  left. reflexivity.
Defined.










(** ** Recipients *)

Lemma prop_defined (v : JsValue) (k : string) :
  defined v = true -> get_prop v k = Ok (prop v k).
Proof.
  intros H. unfold prop.
  destruct (get_prop_defined v k H) as [x E]. now rewrite E.
Qed.





(** ** Notification Dispatcher *)

Lemma field_get_prop (v : JsValue) (k : string) (x : JsValue) :
  field v k = Some x -> get_prop v k = Ok x.
Proof.
  destruct v; simpl; intros H; try discriminate. now rewrite H.
Qed.

Lemma field_destructurable (v : JsValue) (k : string) (x : JsValue) :
  field v k = Some x -> forall p, destructurable p v = Ok tt.
Proof.
  destruct v; simpl; intros H; try discriminate; reflexivity.
Qed.




Section DirectSend.
Variable T : Nodemailer.Transport.
Variable env : Nodemailer.Env.
Variable emailContent : string.

Local Abbreviation mail := (direct_mail env emailContent).



End DirectSend.




(** ** File Intake *)

Lemma nat_of_ascii_inj (a b : ascii) : nat_of_ascii a = nat_of_ascii b -> a = b.
Proof.
  intros H. rewrite <- (ascii_nat_embedding a), <- (ascii_nat_embedding b).
  now rewrite H.
Qed.

Lemma lower_char_same_letter (a b : ascii) :
  no_capital b = true -> Ascii.eqb (lower_char a) b = same_letter a b.
Proof.
  unfold no_capital, lower_char, same_letter. intros Hb.
  pose proof (nat_ascii_bounded a) as Ba.
  destruct ((65 <=? nat_of_ascii a)%nat && (nat_of_ascii a <=? 90)%nat) eqn:Ca.
  - apply andb_prop in Ca. destruct Ca as [C1 C2].
    apply Nat.leb_le in C1. apply Nat.leb_le in C2.
    apply negb_true_iff in Hb.
    replace (nat_of_ascii a =? nat_of_ascii b)%nat with false.
    2:{ symmetry. apply Nat.eqb_neq. intros E. rewrite <- E in Hb.
        apply andb_false_iff in Hb.
        destruct Hb as [Hb|Hb]; apply Nat.leb_gt in Hb; lia. }
    rewrite Hb. simpl. rewrite orb_false_r.
    destruct (nat_of_ascii b =? nat_of_ascii a + 32)%nat eqn:E.
    + apply Nat.eqb_eq in E. apply Ascii.eqb_eq.
      rewrite <- E. apply ascii_nat_embedding.
    + apply Nat.eqb_neq in E. apply Ascii.eqb_neq. intros F. apply E.
      rewrite <- F. rewrite nat_ascii_embedding; lia.
  - apply negb_true_iff in Hb. rewrite Hb. simpl. rewrite !orb_false_r.
    destruct (nat_of_ascii a =? nat_of_ascii b)%nat eqn:E.
    + apply Nat.eqb_eq in E. apply Ascii.eqb_eq. now apply nat_of_ascii_inj.
    + apply Nat.eqb_neq in E. apply Ascii.eqb_neq. intros F. apply E.
      now rewrite F.
Qed.

(** Comparing the lower-cased extension with a text without capitals is
    comparing the two without regard to case. *)
Lemma toLowerCase_eq_ignore_case (t : string) :
  no_capitals t = true ->
  forall e, String.eqb (toLowerCase e) t = eq_ignore_case e t.
Proof.
  induction t as [|b t IH]; intros Ht e; destruct e as [|a e]; simpl;
    try reflexivity.
  simpl in Ht. apply andb_prop in Ht. destruct Ht as [Hb Ht].
  rewrite (lower_char_same_letter a b Hb).
  destruct (same_letter a b); simpl; [now apply IH|reflexivity].
Qed.

Lemma process_files_intake (S : Storage) (files : list File) :
  forallb (readable S) files = true ->
  forall processedFiles,
    process_files S files processedFiles
    = Ok (processedFiles ++ intake S files)%list.
Proof.
  induction files as [|f rest IH]; simpl; intros H acc.
  - now rewrite app_nil_r.
  - apply andb_prop in H. destruct H as [Hf Hrest].
    unfold readable in Hf. unfold intake_entry, classify in *.
    rewrite !toLowerCase_eq_ignore_case by reflexivity.
    destruct (eq_ignore_case (extname (originalname f)) ".txt").
    + destruct (readFile S (path f)) as [text|e]; [|discriminate]. simpl.
      rewrite (IH Hrest). now rewrite <- app_assoc.
    + destruct (eq_ignore_case (extname (originalname f)) ".csv").
      * unfold parseCSV.
        destruct (readFile S (path f)) as [bytes|e]; [|discriminate].
        destruct (csv S bytes) as [rows|e]; [|discriminate]. simpl.
        rewrite (IH Hrest). now rewrite <- app_assoc.
      * simpl. apply (IH Hrest).
Qed.



(** *** What path.extname returns on an ordinary file name *)

Lemma list_ascii_app (a b : string) :
  list_ascii_of_string (a ++ b)
  = (list_ascii_of_string a ++ list_ascii_of_string b)%list.
Proof.
  induction a as [|x a IH]; simpl; [reflexivity | now rewrite IH].
Qed.

Lemma length_list_ascii (a : string) :
  List.length (list_ascii_of_string a) = String.length a.
Proof.
  induction a as [|x a IH]; simpl; [reflexivity | now rewrite IH].
Qed.

Lemma length_append (a b : string) :
  String.length (a ++ b) = (String.length a + String.length b)%nat.
Proof.
  induction a as [|x a IH]; simpl; [reflexivity | now rewrite IH].
Qed.

Lemma substring_all (b : string) : String.substring 0 (String.length b) b = b.
Proof.
  induction b as [|x b IH]; simpl; [reflexivity | now rewrite IH].
Qed.

Lemma substring_suffix (a b : string) :
  String.substring (String.length a) (String.length b) (a ++ b) = b.
Proof.
  induction a as [|x a IH]; simpl; [apply substring_all | exact IH].
Qed.

Lemma ext_step_plain_keep (c : ascii) (i : Z) (st : ExtState) :
  plain_char c = true -> startDot st = -1 -> end_ st <> -1 ->
  ext_step c i st = st.
Proof.
  unfold plain_char, ext_step. intros Hc Hs He.
  apply andb_prop in Hc. destruct Hc as [_ Hd]. apply negb_true_iff in Hd.
  apply Z.eqb_neq in He. rewrite He, Hd, Hs. reflexivity.
Qed.

Lemma ext_step_plain_first (c : ascii) (i : Z) (st : ExtState) :
  plain_char c = true -> startDot st = -1 -> end_ st = -1 ->
  ext_step c i st = mkExt (-1) (startPart st) (i + 1) false (preDotState st).
Proof.
  unfold plain_char, ext_step. intros Hc Hs He.
  apply andb_prop in Hc. destruct Hc as [_ Hd]. apply negb_true_iff in Hd.
  rewrite He, Hd. simpl. rewrite Hs. reflexivity.
Qed.

Lemma plain_not_slash (c : ascii) : plain_char c = true -> is_slash c = false.
Proof.
  unfold plain_char. intros H. apply andb_prop in H. destruct H as [H _].
  now apply negb_true_iff in H.
Qed.

Lemma ext_loop_plain_keep (l : list ascii) :
  Forall (fun c => plain_char c = true) l ->
  forall rest i st,
    startDot st = -1 -> end_ st <> -1 ->
    ext_loop (l ++ rest) i st
    = ext_loop rest (i - Z.of_nat (List.length l)) st.
Proof.
  induction 1 as [|c l Hc Hl IH]; intros rest i st Hs He.
  - simpl. now rewrite Z.sub_0_r.
  - cbn [app ext_loop]. rewrite (plain_not_slash c Hc).
    rewrite (ext_step_plain_keep c i st Hc Hs He).
    rewrite (IH rest (i - 1) st Hs He). f_equal.
    cbn [List.length]. lia.
Qed.

Lemma ext_loop_plain_first (c : ascii) (l : list ascii) :
  Forall (fun c => plain_char c = true) (c :: l) ->
  forall rest i st,
    0 <= i -> startDot st = -1 -> end_ st = -1 ->
    ext_loop ((c :: l) ++ rest) i st
    = ext_loop rest (i - Z.of_nat (List.length (c :: l)))
        (mkExt (-1) (startPart st) (i + 1) false (preDotState st)).
Proof.
  intros H rest i st Hi Hs He. inversion H as [|c' l' Hc Hl]; subst.
  cbn [app ext_loop]. rewrite (plain_not_slash c Hc).
  rewrite (ext_step_plain_first c i st Hc Hs He).
  rewrite (ext_loop_plain_keep l Hl); cbn [startDot end_]; [|reflexivity|lia].
  f_equal. cbn [List.length]. lia.
Qed.

(** Once the dot is found and a character before it has been seen, the
    rest of the loop leaves the dot, the end and the fact alone. *)
Lemma ext_loop_settled (l : list ascii) :
  forall i st,
    startDot st <> -1 -> end_ st <> -1 -> matchedSlash st = false ->
    preDotState st <> 0 ->
    startDot (ext_loop l i st) = startDot st
    /\ end_ (ext_loop l i st) = end_ st
    /\ preDotState (ext_loop l i st) <> 0.
Proof.
  induction l as [|c l IH]; intros i st Hs He Hm Hp; cbn [ext_loop].
  - repeat split; assumption.
  - destruct (is_slash c).
    + rewrite Hm. cbn. repeat split; assumption.
    + assert (K : startDot (ext_step c i st) = startDot st
                  /\ end_ (ext_step c i st) = end_ st
                  /\ matchedSlash (ext_step c i st) = false
                  /\ preDotState (ext_step c i st) <> 0).
      { unfold ext_step. apply Z.eqb_neq in He. rewrite He.
        apply Z.eqb_neq in Hs. rewrite Hs.
        destruct (is_dot c); cbn.
        - destruct (preDotState st =? 1) eqn:E; cbn;
            repeat split; try assumption; try lia.
          all: try (apply Z.eqb_neq; assumption).
        - repeat split; try assumption; try lia.
          all: try (apply Z.eqb_neq; assumption). }
      destruct K as (K1 & K2 & K3 & K4).
      destruct (IH (i - 1) (ext_step c i st)) as (R1 & R2 & R3);
        try congruence.
      repeat split; congruence.
Qed.

(** For a name that ends in a character other than a separator, a dot and
    a non-empty run of characters without dot or separator, path.extname
    is the dot and that run. *)
Lemma extname_of_suffix (b0 : string) (c : ascii) (e : string) :
  is_slash c = false -> plain e = true -> e <> "" ->
  extname (b0 ++ String c (String "." e)) = String "." e.
Proof.
  intros Hc He Hne. unfold extname.
  set (path := b0 ++ String c (String "." e)).
  assert (Hlen : String.length path
                 = (String.length b0 + 2 + String.length e)%nat).
  { unfold path. rewrite length_append. simpl. lia. }
  assert (Hrev : rev (list_ascii_of_string path)
                 = (rev (list_ascii_of_string e)
                    ++ "."%char :: c :: rev (list_ascii_of_string b0))%list).
  { unfold path. rewrite list_ascii_app. simpl list_ascii_of_string.
    rewrite rev_app_distr. simpl rev. now rewrite <- !app_assoc. }
  rewrite Hrev.
  assert (Hp : Forall (fun x => plain_char x = true)
                 (rev (list_ascii_of_string e))).
  { apply Forall_rev. apply Forall_forall. now apply forallb_forall. }
  assert (Hl : List.length (rev (list_ascii_of_string e)) = String.length e).
  { now rewrite length_rev, length_list_ascii. }
  destruct (rev (list_ascii_of_string e)) as [|c1 l1] eqn:R.
  { exfalso. apply Hne. destruct e; [reflexivity|]. simpl in Hl. discriminate. }
  rewrite (ext_loop_plain_first c1 l1 Hp); try reflexivity; [|lia].
  rewrite Hl. cbn [ext_init startPart preDotState].
  cbn [ext_loop]. replace (is_slash ".") with false by reflexivity.
  set (n := Z.of_nat (String.length path)).
  set (k := n - 1 - Z.of_nat (String.length e)).
  assert (Hk : k = Z.of_nat (String.length b0) + 1) by (unfold k, n; lia).
  assert (Hn : n = k + 1 + Z.of_nat (String.length e)) by (unfold k; lia).
  assert (Hpos : String.length e <> 0%nat).
  { destruct e; [congruence|simpl; lia]. }
  assert (S1 : ext_step "." k (mkExt (-1) 0 (n - 1 + 1) false 0)
               = mkExt k 0 n false 0).
  { unfold ext_step. cbn [end_ startDot startPart matchedSlash preDotState].
    replace (n - 1 + 1 =? -1) with false by (symmetry; apply Z.eqb_neq; lia).
    cbn. f_equal. lia. }
  rewrite S1. rewrite Hc.
  assert (S2 : startDot (ext_step c (k - 1) (mkExt k 0 n false 0)) = k
               /\ end_ (ext_step c (k - 1) (mkExt k 0 n false 0)) = n
               /\ matchedSlash (ext_step c (k - 1) (mkExt k 0 n false 0)) = false
               /\ preDotState (ext_step c (k - 1) (mkExt k 0 n false 0)) <> 0).
  { unfold ext_step. cbn [end_ startDot startPart matchedSlash preDotState].
    replace (n =? -1) with false by (symmetry; apply Z.eqb_neq; lia).
    cbn [end_ startDot startPart matchedSlash preDotState].
    replace (k =? -1) with false by (symmetry; apply Z.eqb_neq; lia).
    destruct (is_dot c); cbn; repeat split; lia. }
  destruct S2 as (A1 & A2 & A3 & A4).
  destruct (ext_loop_settled (rev (list_ascii_of_string b0)) (k - 1 - 1)
              (ext_step c (k - 1) (mkExt k 0 n false 0)))
    as (B1 & B2 & B3); try lia; try assumption.
  rewrite B1, B2, A1, A2.
  replace (k =? -1) with false by (symmetry; apply Z.eqb_neq; lia).
  replace (n =? -1) with false by (symmetry; apply Z.eqb_neq; lia).
  apply Z.eqb_neq in B3. rewrite B3.
  replace (k =? n - 1) with false by (symmetry; apply Z.eqb_neq; lia).
  rewrite andb_false_r. cbn [orb andb].
  unfold slice.
  replace (Z.to_nat k) with (String.length (b0 ++ String c "")).
  2:{ rewrite length_append. simpl. lia. }
  replace (Z.to_nat (n - k)) with (String.length (String "." e)).
  2:{ simpl. lia. }
  replace path with ((b0 ++ String c "") ++ String "." e).
  2:{ unfold path. now rewrite append_assoc. }
  apply substring_suffix.
Qed.

Lemma same_letter_plain (a b : ascii) :
  same_letter a b = true -> plain_char b = true -> plain_char a = true.
Proof.
  unfold same_letter. intros H Hb.
  destruct (nat_of_ascii a =? nat_of_ascii b)%nat eqn:E.
  - apply Nat.eqb_eq in E. now rewrite (nat_of_ascii_inj a b E).
  - assert (L : (65 <= nat_of_ascii a)%nat).
    { cbn [orb] in H. apply orb_prop in H.
      destruct H as [H|H]; apply andb_prop in H; destruct H as [H1 H2];
        apply andb_prop in H1; destruct H1 as [H0 H1];
        apply Nat.leb_le in H0; apply Nat.leb_le in H1;
        [lia | apply Nat.eqb_eq in H2; lia]. }
    unfold plain_char, is_slash, is_dot.
    destruct (Ascii.eqb_spec a "/") as [->|_]; [vm_compute in L; lia|].
    destruct (Ascii.eqb_spec a ".") as [->|_]; [vm_compute in L; lia|].
    reflexivity.
Qed.

Lemma same_letter_c_not_t (a : ascii) :
  same_letter a "c" = true -> same_letter a "t" = false.
Proof.
  unfold same_letter.
  change (nat_of_ascii "c") with 99%nat. change (nat_of_ascii "t") with 116%nat.
  generalize (nat_of_ascii a) as x. intros x. decide_codes.
Qed.

Lemma eq_ignore_case_plain (t : string) :
  plain t = true -> forall e, eq_ignore_case e t = true -> plain e = true.
Proof.
  unfold plain.
  induction t as [|b t IH]; intros Ht e H; destruct e as [|a e];
    simpl in *; try discriminate; try reflexivity.
  apply andb_prop in Ht. destruct Ht as [Hb Ht].
  apply andb_prop in H. destruct H as [Hab H].
  rewrite (same_letter_plain a b Hab Hb). simpl. now apply IH.
Qed.

Lemma eq_ignore_case_nonempty (e t : string) :
  eq_ignore_case e t = true -> t <> "" -> e <> "".
Proof.
  destruct e, t; simpl; congruence.
Qed.

(** A name that ends in [.txt] in any mix of cases, after a character that
    is not a separator, is a transcript; likewise [.csv] and contact
    lists. *)
Lemma classify_by_suffix (b0 : string) (c : ascii) (e : string) :
  is_slash c = false ->
  (eq_ignore_case e "txt" = true ->
   classify (b0 ++ String c (String "." e)) = Some Transcript)
  /\ (eq_ignore_case e "csv" = true ->
      classify (b0 ++ String c (String "." e)) = Some ContactList).
Proof.
  intros Hc. unfold classify. split; intros H.
  - rewrite (extname_of_suffix b0 c e Hc).
    + cbn [eq_ignore_case]. rewrite H. reflexivity.
    + now apply (eq_ignore_case_plain "txt").
    + now apply (eq_ignore_case_nonempty e "txt").
  - rewrite (extname_of_suffix b0 c e Hc).
    + cbn [eq_ignore_case].
      replace (same_letter "." ".") with true by reflexivity.
      rewrite H. cbn [andb].
      destruct e as [|a e]; [discriminate|].
      cbn [eq_ignore_case] in *. apply andb_prop in H. destruct H as [Ha _].
      now rewrite (same_letter_c_not_t a Ha).
    + now apply (eq_ignore_case_plain "csv").
    + now apply (eq_ignore_case_nonempty e "csv").
Qed.

(** ** Determinism of the renderer *)



(** * Further properties of the handlers *)

(** ** Object spread in POST /generate-summary *)

Lemma has_key_lookup (k : string) (l : list (string * JsValue)) :
  has_key k l = false <-> lookup k l = None.
Proof.
  induction l as [|[k' v'] l IH]; simpl.
  - split; reflexivity.
  - destruct (String.eqb k k'); simpl; [split; discriminate | exact IH].
Qed.

Lemma lookup_replace_key_same (k : string) (v : JsValue)
  (l : list (string * JsValue)) :
  has_key k l = true -> lookup k (replace_key k v l) = Some v.
Proof.
  induction l as [|[k' v'] l IH]; simpl; intros H; [discriminate|].
  destruct (String.eqb k k') eqn:E; simpl; rewrite E; [reflexivity|].
  now apply IH.
Qed.

Lemma lookup_replace_key_other (k k0 : string) (v : JsValue)
  (l : list (string * JsValue)) :
  k0 <> k -> lookup k0 (replace_key k v l) = lookup k0 l.
Proof.
  intros N. induction l as [|[k' v'] l IH]; simpl; [reflexivity|].
  destruct (String.eqb k k') eqn:E; simpl.
  - apply String.eqb_eq in E. subst k'.
    apply String.eqb_neq in N. now rewrite N.
  - now rewrite IH.
Qed.

Lemma lookup_insert_index_same (n : Z) (k : string) (v : JsValue)
  (l : list (string * JsValue)) :
  has_key k l = false -> lookup k (insert_index n k v l) = Some v.
Proof.
  induction l as [|[k' v'] l IH]; simpl; intros H.
  - now rewrite String.eqb_refl.
  - apply orb_false_iff in H. destruct H as [E H].
    destruct (index_of_key k') as [m|]; [destruct (m <? n)|]; simpl;
      rewrite ?E, ?String.eqb_refl; auto.
Qed.

Lemma lookup_insert_index_other (n : Z) (k k0 : string) (v : JsValue)
  (l : list (string * JsValue)) :
  k0 <> k -> lookup k0 (insert_index n k v l) = lookup k0 l.
Proof.
  intros N. apply String.eqb_neq in N.
  induction l as [|[k' v'] l IH]; simpl.
  - now rewrite N.
  - destruct (index_of_key k') as [m|]; [destruct (m <? n)|]; simpl;
      rewrite ?N; try reflexivity.
    now rewrite IH.
Qed.

Lemma lookup_app_last (k0 k : string) (v : JsValue)
  (l : list (string * JsValue)) :
  lookup k0 (l ++ [(k, v)])
  = match lookup k0 l with
    | Some x => Some x
    | None => if String.eqb k0 k then Some v else None
    end.
Proof.
  induction l as [|[k' v'] l IH]; simpl; [reflexivity|].
  destruct (String.eqb k0 k'); [reflexivity | exact IH].
Qed.

(** Writing a property and reading it back; the other properties are left
    as they were. *)
Lemma lookup_obj_set (l : list (string * JsValue)) (k k0 : string)
  (v : JsValue) :
  lookup k0 (obj_set l k v) = if String.eqb k0 k then Some v else lookup k0 l.
Proof.
  unfold obj_set. destruct (String.eqb k0 k) eqn:E.
  - apply String.eqb_eq in E. subst k0.
    destruct (has_key k l) eqn:H.
    + now apply lookup_replace_key_same.
    + destruct (index_of_key k) as [n|].
      * now apply lookup_insert_index_same.
      * rewrite lookup_app_last. apply has_key_lookup in H. rewrite H.
        now rewrite String.eqb_refl.
  - apply String.eqb_neq in E.
    destruct (has_key k l) eqn:H.
    + now apply lookup_replace_key_other.
    + destruct (index_of_key k) as [n|].
      * now apply lookup_insert_index_other.
      * rewrite lookup_app_last. apply String.eqb_neq in E. rewrite E.
        now destruct (lookup k0 l).
Qed.

Lemma lookup_fold_obj_set (l target : list (string * JsValue)) (k : string) :
  lookup k (fold_left (fun acc kv => obj_set acc (fst kv) (snd kv)) l target)
  = match last_binding k l with
    | Some x => Some x
    | None => lookup k target
    end.
Proof.
  unfold last_binding. revert target.
  induction l as [|[k1 v1] l IH]; intros target; simpl; [reflexivity|].
  rewrite IH, lookup_app_last, lookup_obj_set. simpl.
  destruct (lookup k (rev l)); [reflexivity|].
  now destruct (String.eqb k k1).
Qed.

Lemma completion_text_chain (parse : JsValue -> Try JsValue)
  (openai_create : ChatRequest -> Try JsValue) (v : Variant)
  (req_body completion text : JsValue) :
  defined req_body = true ->
  openai_create (chat_request v (prop req_body "transcript"))
  = Returns completion ->
  completion_text completion = Ok text ->
  summary_body parse openai_create v req_body
  = (result <- run (parse text) ;;
     Ok (res_json (spread [("success", JBool true)] result))).
Proof.
  intros Hd Ho Hc. unfold summary_body.
  replace (destructurable "transcript" req_body) with (Ok tt)
    by (destruct req_body; try discriminate; reflexivity).
  cbn [bind]. rewrite (prop_defined req_body "transcript" Hd). cbn [bind].
  rewrite Ho. cbn [run bind].
  unfold completion_text in Hc.
  destruct (get_prop completion "choices") as [ch|e|e]; try discriminate.
  cbn [bind] in *.
  destruct (get_index ch 0) as [c0|e|e]; try discriminate. cbn [bind] in *.
  destruct (get_prop c0 "message") as [m|e|e]; try discriminate.
  cbn [bind] in *. now rewrite Hc.
Qed.

(** When the completion text parses to an object, the answer is a 200
    whose body has every property of that object with the value the
    object gives it, and no other property but [success]; [success] is
    [true] unless the object has a [success] of its own, which then
    wins. *)
Theorem summary_fields_carried :
  forall (parse : JsValue -> Try JsValue)
         (openai_create : ChatRequest -> Try JsValue) (v : Variant)
         (req_body completion text : JsValue)
         (l : list (string * JsValue)),
    defined req_body = true ->
    openai_create (chat_request v (prop req_body "transcript"))
    = Returns completion ->
    completion_text completion = Ok text ->
    parse text = Returns (JObj l) ->
    exists props,
      generate_summary parse openai_create v req_body
      = Responded (mkResponse 200 (JObj props))
      /\ forall k,
          lookup k props
          = match last_binding k l with
            | Some x => Some x
            | None => if String.eqb k "success" then Some (JBool true)
                      else None
            end.
Proof.
  intros parse openai_create v req_body completion text l Hd Ho Hc Hp.
  unfold generate_summary.
  rewrite (completion_text_chain parse openai_create v req_body completion
             text Hd Ho Hc).
  rewrite Hp. cbn [run bind try_catch].
  exists (spread [("success", JBool true)] (JObj l)). split; [reflexivity|].
  intros k. unfold spread, own_props. rewrite lookup_fold_obj_set.
  reflexivity.
Qed.

Lemma summary_fields_carried_witness :
  exists props,
    generate_summary
      (fun _ => Returns (JObj [("summary", JStr "All good");
                               ("success", JBool false)]))
      (fun _ => Returns (completion_with (JStr "text")))
      ResendVariant hello_request
    = Responded (mkResponse 200 (JObj props))
    /\ forall k,
        lookup k props
        = match last_binding k [("summary", JStr "All good");
                                ("success", JBool false)] with
          | Some x => Some x
          | None => if String.eqb k "success" then Some (JBool true) else None
          end.
Proof.
  apply (summary_fields_carried
           (fun _ => Returns (JObj [("summary", JStr "All good");
                                    ("success", JBool false)]))
           (fun _ => Returns (completion_with (JStr "text")))
           ResendVariant hello_request (completion_with (JStr "text"))
           (JStr "text")); reflexivity.
Defined.

(** ** Failures and skipped files in POST /upload *)

Lemma process_files_app (S : Storage) (a b : list File) :
  forall processedFiles,
    process_files S (a ++ b)%list processedFiles
    = (done <- process_files S a processedFiles ;; process_files S b done).
Proof.
  induction a as [|f a IH]; intros acc; simpl; [reflexivity|].
  destruct (String.eqb (toLowerCase (extname (originalname f))) ".txt").
  - destruct (run (readFile S (path f))) as [text|e|e]; simpl;
      [apply IH|reflexivity|reflexivity].
  - destruct (String.eqb (toLowerCase (extname (originalname f))) ".csv").
    + destruct (parseCSV S (path f)) as [rows|e|e]; simpl;
        [apply IH|reflexivity|reflexivity].
    + apply IH.
Qed.

Lemma process_files_after (S : Storage) (pre : list File) (f : File)
  (post : list File) :
  forallb (readable S) pre = true ->
  process_files S (pre ++ f :: post)%list []
  = process_files S (f :: post) (intake S pre).
Proof.
  intros H. rewrite process_files_app.
  now rewrite (process_files_intake S pre H).
Qed.

(** A batch fails as a whole: when the files before [f] are fine and the
    text of the transcript [f] cannot be read, or the csv stream of the
    contact list [f] reports an error, the answer is a 500 with the
    message of that error, and the entries of the files before are not
    reported. *)
Theorem upload_failure_is_whole :
  forall (S : Storage) (pre : list File) (f : File) (post : list File)
         (e : Error),
    forallb (readable S) pre = true ->
    caught_failure S f = Some e ->
    upload_handler S (Some (pre ++ f :: post)%list)
    = Responded (failure 500 (JStr (err_message e))).
Proof.
  intros S pre f post e Hpre Hf. unfold upload_handler.
  rewrite (process_files_after S pre f post Hpre).
  cbn [process_files]. unfold caught_failure, classify in Hf.
  rewrite !toLowerCase_eq_ignore_case by reflexivity.
  destruct (eq_ignore_case (extname (originalname f)) ".txt").
  - destruct (readFile S (path f)) as [text|e']; [discriminate|].
    injection Hf as <-. reflexivity.
  - destruct (eq_ignore_case (extname (originalname f)) ".csv");
      [|discriminate].
    unfold parseCSV.
    destruct (readFile S (path f)) as [bytes|e']; [|discriminate].
    destruct (csv S bytes) as [rows|e']; [discriminate|].
    injection Hf as <-. reflexivity.
Qed.

Lemma upload_failure_is_whole_witness :
  upload_handler disk
    (Some ([mkFile "notes.TXT" "uploads/1-notes.TXT"]
           ++ mkFile "minutes.txt" "uploads/9-minutes.txt"
           :: [mkFile "team.csv" "uploads/2-team.csv"])%list)
  = Responded (failure 500 (JStr "ENOENT")).
Proof.
  apply (upload_failure_is_whole disk
           [mkFile "notes.TXT" "uploads/1-notes.TXT"]
           (mkFile "minutes.txt" "uploads/9-minutes.txt")
           [mkFile "team.csv" "uploads/2-team.csv"]
           (mkError "Error" "ENOENT")); reflexivity.
Defined.

(** [parseCSV] puts its listeners on the csv stream: when the files before
    [f] are fine and the read stream of the contact list [f] reports an
    error, no listener takes it, the handler gives no answer and the
    process ends with that error. *)
Theorem upload_stream_error_ends_process :
  forall (S : Storage) (pre : list File) (f : File) (post : list File)
         (e : Error),
    forallb (readable S) pre = true ->
    stream_failure S f = Some e ->
    upload_handler S (Some (pre ++ f :: post)%list) = Crashed e.
Proof.
  intros S pre f post e Hpre Hf. unfold upload_handler.
  rewrite (process_files_after S pre f post Hpre).
  cbn [process_files]. unfold stream_failure, classify in Hf.
  rewrite !toLowerCase_eq_ignore_case by reflexivity.
  destruct (eq_ignore_case (extname (originalname f)) ".txt");
    [discriminate|].
  destruct (eq_ignore_case (extname (originalname f)) ".csv"); [|discriminate].
  unfold parseCSV.
  destruct (readFile S (path f)) as [bytes|e']; [discriminate|].
  injection Hf as <-. reflexivity.
Qed.

Lemma upload_stream_error_ends_process_witness :
  upload_handler disk
    (Some ([mkFile "notes.TXT" "uploads/1-notes.TXT"]
           ++ mkFile "crew.CSV" "uploads/9-crew.CSV" :: [])%list)
  = Crashed (mkError "Error" "ENOENT").
Proof.
  apply (upload_stream_error_ends_process disk
           [mkFile "notes.TXT" "uploads/1-notes.TXT"]
           (mkFile "crew.CSV" "uploads/9-crew.CSV") []
           (mkError "Error" "ENOENT")); reflexivity.
Defined.

(** *** Names without a recognised extension *)

Lemma ext_step_no_dot (c : ascii) (i : Z) (st : ExtState) :
  is_dot c = false -> startDot st = -1 -> startDot (ext_step c i st) = -1.
Proof.
  unfold ext_step. intros Hc Hs. rewrite Hc.
  destruct (end_ st =? -1); cbn [startDot]; rewrite Hs; cbn;
    solve [reflexivity | exact Hs].
Qed.

Lemma ext_loop_no_dot (l : list ascii) :
  forallb (fun c => negb (is_dot c)) l = true ->
  forall i st, startDot st = -1 -> startDot (ext_loop l i st) = -1.
Proof.
  induction l as [|c l IH]; cbn [forallb ext_loop]; intros H i st Hs.
  - exact Hs.
  - apply andb_prop in H. destruct H as [Hc Hl]. apply negb_true_iff in Hc.
    destruct (is_slash c).
    + destruct (negb (matchedSlash st)); [exact Hs|now apply IH].
    + apply IH; [exact Hl|]. now apply ext_step_no_dot.
Qed.

Lemma forallb_rev {A} (p : A -> bool) (l : list A) :
  forallb p (rev l) = forallb p l.
Proof.
  induction l as [|a l IH]; simpl; [reflexivity|].
  rewrite forallb_app, IH. simpl. rewrite andb_true_r. apply andb_comm.
Qed.

Lemma extname_no_dot (path : string) :
  has_dot path = false -> extname path = "".
Proof.
  unfold has_dot, extname. intros H.
  rewrite ext_loop_no_dot; [reflexivity| |reflexivity].
  rewrite forallb_rev.
  induction (list_ascii_of_string path) as [|c l IH]; simpl in *;
    [reflexivity|].
  apply orb_false_iff in H. destruct H as [Hc Hl].
  rewrite Hc. simpl. now apply IH.
Qed.

(** A file whose name has no dot is of no kind: the loop goes on to the
    next file with the entries it had, and does not read a thing. *)
Theorem upload_skips_names_without_dot :
  forall (S : Storage) (f : File) (rest : list File)
         (processedFiles : list JsValue),
    has_dot (originalname f) = false ->
    process_files S (f :: rest) processedFiles
    = process_files S rest processedFiles.
Proof.
  intros S f rest acc H. cbn [process_files].
  now rewrite (extname_no_dot _ H).
Qed.

Lemma upload_skips_names_without_dot_witness :
  process_files broken_disk (mkFile "txt" "uploads/1-txt" :: []) [] = Ok [].
Proof.
  apply (upload_skips_names_without_dot broken_disk
           (mkFile "txt" "uploads/1-txt") [] []).
  reflexivity.
Defined.

Lemma ext_step_first_dot (i e : Z) (m : bool) :
  0 <= i -> e <> -1 ->
  ext_step "." i ext_init = mkExt i 0 (i + 1) false 0
  /\ ext_step "." i (mkExt (-1) 0 e m 0) = mkExt i 0 e m 0.
Proof.
  intros Hi He. unfold ext_step, ext_init.
  cbn [end_ startDot startPart matchedSlash preDotState].
  replace (is_dot ".") with true by reflexivity.
  replace (e =? -1) with false by (symmetry; apply Z.eqb_neq; exact He).
  cbn. split; reflexivity.
Qed.

(** When the last component of a path is a dot and then characters
    without dot or separator, the loop ends without having seen a
    character before the dot. *)
Lemma ext_loop_hidden (l tail : list ascii) (i : Z) :
  Forall (fun c => plain_char c = true) l ->
  0 <= i - Z.of_nat (List.length l) ->
  tail = [] \/ (exists t, tail = "/"%char :: t) ->
  preDotState (ext_loop (l ++ "."%char :: tail) i ext_init) = 0.
Proof.
  intros Hl Hi Ht.
  assert (K : forall k e,
                preDotState (ext_loop tail (k - 1) (mkExt k 0 e false 0)) = 0).
  { intros k e. destruct Ht as [->|[t ->]]; reflexivity. }
  destruct l as [|c l].
  - cbn [app ext_loop]. replace (is_slash ".") with false by reflexivity.
    simpl List.length in Hi.
    destruct (ext_step_first_dot i 0 true) as [E _]; [lia|lia|].
    rewrite E. apply K.
  - rewrite (ext_loop_plain_first c l Hl); try reflexivity;
      [|cbn [List.length] in Hi; lia].
    cbn [ext_init startPart preDotState ext_loop].
    replace (is_slash ".") with false by reflexivity.
    destruct (ext_step_first_dot (i - Z.of_nat (List.length (c :: l))) (i + 1)
                false) as [_ E]; [lia|cbn [List.length] in Hi; lia|].
    rewrite E. apply K.
Qed.

Lemma extname_hidden (pre e : string) :
  plain e = true ->
  pre = "" \/ (exists p, pre = p ++ "/") ->
  extname (pre ++ String "." e) = "".
Proof.
  intros He Hpre. unfold extname.
  set (path := pre ++ String "." e).
  assert (Hrev : rev (list_ascii_of_string path)
                 = (rev (list_ascii_of_string e)
                    ++ "."%char :: rev (list_ascii_of_string pre))%list).
  { unfold path. rewrite list_ascii_app. simpl list_ascii_of_string.
    rewrite rev_app_distr. simpl rev. now rewrite <- app_assoc. }
  assert (Hlen : String.length path
                 = (String.length pre + 1 + String.length e)%nat).
  { unfold path. rewrite length_append. simpl. lia. }
  rewrite Hrev. rewrite ext_loop_hidden.
  - now rewrite !orb_true_r.
  - apply Forall_rev. apply Forall_forall. now apply forallb_forall.
  - rewrite length_rev, length_list_ascii. lia.
  - destruct Hpre as [->|[p ->]]; [left; reflexivity|].
    right. rewrite list_ascii_app. simpl list_ascii_of_string.
    rewrite rev_app_distr. simpl. eauto.
Qed.

(** A file whose name, or the last component of whose name, is a dot and
    then characters without dot or separator (a file called [.txt] or
    [.csv], say) has no extension for the handler: it is skipped like a
    file of another kind, and not read. *)
Theorem upload_skips_hidden_names :
  forall (S : Storage) (f : File) (rest : list File)
         (processedFiles : list JsValue) (pre e : string),
    originalname f = pre ++ String "." e ->
    plain e = true ->
    pre = "" \/ (exists p, pre = p ++ "/") ->
    process_files S (f :: rest) processedFiles
    = process_files S rest processedFiles.
Proof.
  intros S f rest acc pre e Hn He Hpre. cbn [process_files].
  now rewrite Hn, (extname_hidden pre e He Hpre).
Qed.

Lemma upload_skips_hidden_names_witness :
  process_files broken_disk (mkFile ".csv" "uploads/1-.csv" :: []) [] = Ok [].
Proof.
  apply (upload_skips_hidden_names broken_disk
           (mkFile ".csv" "uploads/1-.csv") [] [] "" "csv");
    [reflexivity|reflexivity|left; reflexivity].
Defined.

(** A file whose name ends, after a character that is no separator, in
    [.txt] written in any mix of cases, and whose text can be read, adds
    one transcript entry with its name as uploaded and that text. *)
Theorem upload_accepts_any_case :
  forall (S : Storage) (f : File) (rest : list File)
         (processedFiles : list JsValue) (b0 : string) (c : ascii)
         (e text : string),
    originalname f = b0 ++ String c (String "." e) ->
    is_slash c = false ->
    eq_ignore_case e "txt" = true ->
    readFile S (path f) = Returns text ->
    process_files S (f :: rest) processedFiles
    = process_files S rest
        (processedFiles
         ++ [processed (originalname f) "transcript" (JStr text)])%list.
Proof.
  intros S f rest acc b0 c e text Hn Hc He Hr. cbn [process_files].
  rewrite toLowerCase_eq_ignore_case by reflexivity.
  replace (eq_ignore_case (extname (originalname f)) ".txt") with true.
  - rewrite Hr. reflexivity.
  - rewrite Hn, (extname_of_suffix b0 c e Hc).
    + cbn [eq_ignore_case]. now rewrite He.
    + now apply (eq_ignore_case_plain "txt").
    + now apply (eq_ignore_case_nonempty e "txt").
Qed.

Lemma upload_accepts_any_case_witness :
  process_files disk (mkFile "notes.TXT" "uploads/1-notes.TXT" :: []) []
  = Ok [processed "notes.TXT" "transcript" (JStr "Hi all")].
Proof.
  apply (upload_accepts_any_case disk
           (mkFile "notes.TXT" "uploads/1-notes.TXT") [] [] "note" "s" "TXT"
           "Hi all"); reflexivity.
Defined.

(** ** Stored names *)

Lemma digits_without_dash (d : Decimal.uint) :
  forallb (fun c => negb (Ascii.eqb c "-"))
    (list_ascii_of_string (NilEmpty.string_of_uint d)) = true.
Proof.
  induction d; simpl; auto.
Qed.

Lemma Z_to_string_without_dash (n : Z) :
  0 <= n ->
  forallb (fun c => negb (Ascii.eqb c "-"))
    (list_ascii_of_string (Z_to_string n)) = true.
Proof.
  intros H. unfold Z_to_string, Z.to_int.
  destruct n as [|p|p]; [reflexivity| |lia].
  simpl. unfold NilZero.string_of_uint.
  destruct (Pos.to_uint p); try apply digits_without_dash. reflexivity.
Qed.

Lemma Z_to_string_inj (a b : Z) : Z_to_string a = Z_to_string b -> a = b.
Proof.
  unfold Z_to_string. intros H.
  assert (N : forall z, Z.to_int z <> Decimal.Pos Decimal.Nil
                        /\ Z.to_int z <> Decimal.Neg Decimal.Nil).
  { intros [|p|p]; simpl; split; try discriminate;
      intros [= E]; now apply (DecimalPos.Unsigned.to_uint_nonnil p). }
  apply DecimalZ.to_int_inj.
  assert (E : Some (Z.to_int a) = Some (Z.to_int b)).
  { rewrite <- (NilZero.isi (Z.to_int a)) by apply N.
    rewrite <- (NilZero.isi (Z.to_int b)) by apply N.
    now rewrite H. }
  now injection E.
Qed.

Lemma split_at_dash (s1 s2 x y : string) :
  forallb (fun c => negb (Ascii.eqb c "-")) (list_ascii_of_string s1) = true ->
  forallb (fun c => negb (Ascii.eqb c "-")) (list_ascii_of_string s2) = true ->
  s1 ++ String "-" x = s2 ++ String "-" y ->
  s1 = s2 /\ x = y.
Proof.
  revert s2. induction s1 as [|c s1 IH]; intros [|c2 s2] H1 H2 E; simpl in *.
  - injection E as ->. split; reflexivity.
  - injection E as <- _. discriminate.
  - injection E as -> _. discriminate.
  - injection E as -> E.
    apply andb_prop in H1. destruct H1 as [_ H1].
    apply andb_prop in H2. destruct H2 as [_ H2].
    destruct (IH s2 H1 H2 E) as [-> ->]. split; reflexivity.
Qed.

(** Two uploads are stored under the same name only when they have the
    same original name and arrive in the same millisecond. *)
Theorem stored_names_collide_only_on_same_instant :
  forall (now1 now2 : Z) (name1 name2 : string),
    0 <= now1 -> 0 <= now2 ->
    filename now1 name1 = filename now2 name2 ->
    now1 = now2 /\ name1 = name2.
Proof.
  intros a b x y Ha Hb E. unfold filename in E.
  destruct (split_at_dash (Z_to_string a) (Z_to_string b) x y) as [E1 E2];
    try (now apply Z_to_string_without_dash); [exact E|].
  split; [now apply Z_to_string_inj | exact E2].
Qed.

Lemma stored_names_collide_only_on_same_instant_witness :
  1700000000000 = 1700000000000 /\ "notes.txt" = "notes.txt".
Proof.
  apply (stored_names_collide_only_on_same_instant
           1700000000000 1700000000000 "notes.txt" "notes.txt");
    [lia|lia|reflexivity].
Defined.

(** ** Line feeds of the summary *)

Lemma replace_newlines_app (a b : string) :
  replace_newlines (a ++ b) = replace_newlines a ++ replace_newlines b.
Proof.
  induction a as [|c a IH]; simpl; [reflexivity|].
  destruct (Ascii.eqb c LF); simpl; now rewrite IH.
Qed.

Lemma replace_newlines_clean (s : string) :
  has_LF (replace_newlines s) = false.
Proof.
  induction s as [|c s IH]; simpl; [reflexivity|].
  destruct (Ascii.eqb c LF) eqn:E; simpl; [exact IH|].
  now rewrite E.
Qed.

Lemma replace_newlines_same (s : string) :
  has_LF s = false -> replace_newlines s = s.
Proof.
  induction s as [|c s IH]; simpl; intros H; [reflexivity|].
  apply orb_false_iff in H. destruct H as [E H]. rewrite E.
  now rewrite IH.
Qed.

(** The text put into the page for a summary has no line feed left; it is
    the summary itself, with not a character changed or escaped, exactly
    when the summary has no line feed; and the replacement goes through
    the summary piece by piece. *)
Theorem summary_line_feeds_replaced :
  forall (s t : string),
    has_LF (replace_newlines s) = false
    /\ (replace_newlines s = s <-> has_LF s = false)
    /\ replace_newlines (s ++ t) = replace_newlines s ++ replace_newlines t
    /\ summary_replace (JStr s) = Ok (replace_newlines s).
Proof.
  intros s t. repeat split.
  - apply replace_newlines_clean.
  - intros E. rewrite <- E. apply replace_newlines_clean.
  - apply replace_newlines_same.
  - apply replace_newlines_app.
Qed.

(** ** When the renderers return a page *)












(** ** What the dispatch handlers send, and what they never send *)

(** The Resend variant makes at most one delivery call for a request, and
    whatever the request holds that call is addressed to
    markgleasonwork@gmail.com, from the fixed sender and with the fixed
    subject: no address taken from the request is ever written to. *)
Theorem resend_writes_only_to_operator :
  forall (gt0 : string -> bool) (P : Resend.Provider)
         (resend : option Resend.Client) (req_body : JsValue) (w : World),
    exists new,
      issued (snd (Resend.send_emails gt0 P resend req_body w))
      = (issued w ++ new)%list
      /\ (List.length new <= 1)%nat
      /\ Forall (fun m =>
                   mail_to m = JStr "markgleasonwork@gmail.com"
                   /\ mail_from m
                      = JStr "Meeting Transcript Utility <markgleasonwork@gmail.com>"
                   /\ subject m = "Meeting Summary and Action Items") new.
Proof.
  intros gt0 P resend req_body w.
  assert (Z0 : exists new : list Mail,
             issued w = (issued w ++ new)%list /\ (List.length new <= 1)%nat
             /\ Forall (fun m =>
                   mail_to m = JStr "markgleasonwork@gmail.com"
                   /\ mail_from m
                      = JStr "Meeting Transcript Utility <markgleasonwork@gmail.com>"
                   /\ subject m = "Meeting Summary and Action Items") new).
  { exists []. split; [now rewrite app_nil_r|]. split; [simpl; lia|constructor]. }
  unfold Resend.send_emails, try_catchE, Resend.send_body, bindE, lift, ret.
  destruct resend as [client|]; [|exact Z0].
  destruct (destructurable "recipients" req_body) as [u|e|e]; try exact Z0.
  destruct (get_prop req_body "recipients") as [recipients|e|e]; try exact Z0.
  destruct (get_prop req_body "summary") as [summary|e|e]; try exact Z0.
  destruct (get_prop req_body "actionItems") as [actionItems|e|e];
    try exact Z0.
  destruct (Resend.formatEmailContent gt0 summary actionItems recipients)
    as [content|e|e]; try exact Z0.
  exists [Resend.test_mail content]. split; [|split].
  - unfold Resend.emails_send.
    destruct (P (Resend.apiKey client) (issued w) (Resend.test_mail content))
      as [rep|e]; simpl; [|reflexivity].
    destruct (truthy (Resend.error rep)); simpl; [|reflexivity].
    destruct (get_prop (Resend.error rep) "message"); reflexivity.
  - simpl. lia.
  - constructor; [|constructor]. repeat split.
Qed.

Lemma forEach_rows_cases (actionItems : JsValue) (html : string) :
  (exists x, forEach_rows actionItems html = Ok x)
  \/ type_error (forEach_rows actionItems html).
Proof.
  destruct actionItems; try (right; eexists; split; reflexivity).
  apply append_rows_cases.
Qed.

Lemma nodemailer_format_cases (summary actionItems : JsValue) :
  (exists x, Nodemailer.formatEmailContent summary actionItems = Ok x)
  \/ type_error (Nodemailer.formatEmailContent summary actionItems).
Proof.
  unfold Nodemailer.formatEmailContent.
  destruct (summary_replace_cases summary) as [[x E]|(e & E & N)];
    rewrite E; simpl; [|right; now exists e].
  match goal with
  | |- context [forEach_rows actionItems ?h] =>
      destruct (forEach_rows_cases actionItems h) as [[y E']|(e & E' & N)]
  end; rewrite E'; simpl; [eauto|right; now exists e].
Qed.

Lemma resend_format_cases (gt0 : string -> bool)
  (summary actionItems recipients : JsValue) :
  (exists x, Resend.formatEmailContent gt0 summary actionItems recipients = Ok x)
  \/ type_error (Resend.formatEmailContent gt0 summary actionItems recipients).
Proof.
  unfold Resend.formatEmailContent.
  match goal with
  | |- context [Resend.recipientsList gt0 ?r] =>
      destruct (recipientsList_cases gt0 r) as [[l E0]|(e & E0 & N)]
  end; rewrite E0; simpl; [|right; now exists e].
  destruct (summary_replace_cases summary) as [[x E]|(e & E & N)];
    rewrite E; simpl; [|right; now exists e].
  match goal with
  | |- context [forEach_rows actionItems ?h] =>
      destruct (forEach_rows_cases actionItems h) as [[y E']|(e & E' & N)]
  end; rewrite E'; simpl; [eauto|right; now exists e].
Qed.

Lemma resend_refusal (gt0 : string -> bool) (P : Resend.Provider)
  (client : Resend.Client) (req_body : JsValue) (w : World) (e : Error) :
  defined req_body = true ->
  Resend.formatEmailContent gt0 (prop req_body "summary")
    (prop req_body "actionItems") (prop req_body "recipients") = Throw e ->
  Resend.send_emails gt0 P (Some client) req_body w
  = (Responded (failure 500 (JStr (err_message e))), w).
Proof.
  intros Hd He.
  assert (D : destructurable "recipients" req_body = Ok tt)
    by (destruct req_body; try discriminate; reflexivity).
  unfold Resend.send_emails, try_catchE, Resend.send_body, bindE, lift.
  rewrite D, !(prop_defined req_body _ Hd), He. reflexivity.
Qed.

(** A request the renderer of the Resend variant refuses is answered 500
    with the TypeError of the renderer, and no delivery call is made. *)
Theorem resend_refused_page_sends_nothing :
  forall (gt0 : string -> bool) (P : Resend.Provider) (client : Resend.Client)
         (req_body : JsValue) (w : World) (e : Error),
    defined req_body = true ->
    Resend.formatEmailContent gt0 (prop req_body "summary")
      (prop req_body "actionItems") (prop req_body "recipients") = Throw e ->
    Resend.send_emails gt0 P (Some client) req_body w
    = (Responded (failure 500 (JStr (err_message e))), w).
Proof.
  intros gt0 P client req_body w e Hd He.
  assert (D : destructurable "recipients" req_body = Ok tt)
    by (destruct req_body; try discriminate; reflexivity).
  unfold Resend.send_emails, try_catchE, Resend.send_body, bindE, lift.
  rewrite D, !(prop_defined req_body _ Hd), He. reflexivity.
Qed.

Lemma resend_refused_page_sends_nothing_witness :
  Resend.send_emails never_gt0 resend_ok (Some (Resend.mkClient "key"))
    (send_request (JArr [alice]) (JStr "Done") (JArr [task; JNull])) no_world
  = (Responded
       (failure 500 (JStr "Cannot read properties of null (reading 'item')")),
     no_world).
Proof.
  apply (resend_refused_page_sends_nothing never_gt0 resend_ok
           (Resend.mkClient "key")
           (send_request (JArr [alice]) (JStr "Done") (JArr [task; JNull]))
           no_world (cannot_read JNull "item")); reflexivity.
Defined.

(** In the nodemailer variant the page is rendered before the loop over
    the recipients: a request the renderer refuses is answered 500 with
    the TypeError of the renderer and nobody is written to, however many
    recipients there are. *)
Theorem nodemailer_refused_page_sends_nothing :
  forall (T : Nodemailer.Transport) (env : Nodemailer.Env)
         (req_body : JsValue) (w : World) (e : Error),
    defined req_body = true ->
    Nodemailer.formatEmailContent (prop req_body "summary")
      (prop req_body "actionItems") = Throw e ->
    Nodemailer.send_emails T env req_body w
    = (Responded (failure 500 (JStr (err_message e))), w).
Proof.
  intros T env req_body w e Hd He.
  assert (D : destructurable "recipients" req_body = Ok tt)
    by (destruct req_body; try discriminate; reflexivity).
  unfold Nodemailer.send_emails, try_catchE, Nodemailer.send_body, bindE, lift.
  rewrite D, !(prop_defined req_body _ Hd), He. reflexivity.
Qed.

Lemma nodemailer_refused_page_sends_nothing_witness :
  Nodemailer.send_emails accepting sender
    (send_request (JArr [bob; carol]) JNull (JArr [task])) no_world
  = (Responded
       (failure 500 (JStr "Cannot read properties of null (reading 'replace')")),
     no_world).
Proof.
  apply (nodemailer_refused_page_sends_nothing accepting sender
           (send_request (JArr [bob; carol]) JNull (JArr [task]))
           no_world (cannot_read JNull "replace")); reflexivity.
Defined.

Section DirectSendTrace.
Variable T : Nodemailer.Transport.
Variable env : Nodemailer.Env.
Variable emailContent : string.

Local Abbreviation mail := (direct_mail env emailContent).

Lemma get_prop_is_prop (v : JsValue) (k : string) (x : JsValue) :
  get_prop v k = Ok x -> prop v k = x.
Proof.
  unfold prop. now intros ->.
Qed.

(** Whatever the transport answers, the loop writes to an initial segment
    of the recipients, in their order; all of these messages but possibly
    the last were accepted; and the loop returns normally exactly when
    the message of every recipient was accepted. *)
Lemma send_each_trace (rs : list JsValue) :
  forall w,
    exists k j res w',
      Nodemailer.send_each T env emailContent rs w = (res, w')
      /\ (j <= k)%nat /\ (k <= List.length rs)%nat /\ (k <= S j)%nat
      /\ issued w' = (issued w ++ map mail (firstn k rs))%list
      /\ delivered w' = (delivered w ++ map mail (firstn j rs))%list
      /\ (res = Ok tt <-> j = List.length rs)
      /\ (forall e, res <> Uncaught e).
Proof.
  induction rs as [|r rs IH]; intros w.
  - exists 0%nat, 0%nat, (Ok tt), w. simpl. rewrite !app_nil_r.
    repeat split; auto; discriminate.
  - cbn [Nodemailer.send_each]. unfold bindE, lift.
    destruct (get_prop r "email") as [to|e|e] eqn:G.
    + rewrite <- (get_prop_is_prop r "email" to G).
      fold (direct_mail env emailContent r).
      unfold Nodemailer.sendMail.
      destruct (T (issued w) (mail r)) as [x|e] eqn:A; cbn [run].
      * match goal with
        | |- context [Nodemailer.send_each T env emailContent rs ?w1] =>
            destruct (IH w1)
              as (k & j & res & w' & E & H1 & H2 & H3 & H4 & H5 & H6 & H7)
        end.
        exists (S k), (S j), res, w'. cbn [issued delivered] in H4, H5.
        rewrite E, H4, H5. cbn [firstn map List.length].
        rewrite <- !app_assoc. cbn [app].
        repeat split; try lia; try assumption.
        -- intros R. apply H6 in R. lia.
        -- intros R. apply H6. lia.
      * exists 1%nat, 0%nat, (Throw e),
          (mkWorld (issued w ++ [mail r]) (delivered w)).
        cbn [firstn map List.length issued delivered].
        rewrite app_nil_r.
        repeat split; try lia; try discriminate.
    + exists 0%nat, 0%nat, (Throw e), w. simpl. rewrite !app_nil_r.
      repeat split; auto; try lia; discriminate.
    + destruct r; discriminate.
Qed.
End DirectSendTrace.

(** In the nodemailer variant, for recipients given as an array and a page
    the renderer returns, whatever the transport does: the delivery calls
    go to an initial segment of the recipients, in their order and one
    each; every call but possibly the last was accepted; and the answer is
    the success exactly when the message of every recipient was
    accepted. *)
Theorem direct_send_goes_in_order :
  forall (T : Nodemailer.Transport) (env : Nodemailer.Env)
         (req_body : JsValue) (rs : list JsValue) (emailContent : string)
         (w : World),
    field req_body "recipients" = Some (JArr rs) ->
    Nodemailer.formatEmailContent (prop req_body "summary")
      (prop req_body "actionItems") = Ok emailContent ->
    exists k j,
      (j <= k)%nat /\ (k <= List.length rs)%nat /\ (k <= S j)%nat
      /\ issued (snd (Nodemailer.send_emails T env req_body w))
         = (issued w ++ map (direct_mail env emailContent) (firstn k rs))%list
      /\ delivered (snd (Nodemailer.send_emails T env req_body w))
         = (delivered w ++ map (direct_mail env emailContent) (firstn j rs))%list
      /\ (fst (Nodemailer.send_emails T env req_body w)
          = Responded (res_json [("success", JBool true);
                                 ("message", JStr "Emails sent successfully")])
          <-> j = List.length rs).
Proof.
  intros T env req_body rs emailContent w Hr Hf.
  assert (Hd : defined req_body = true)
    by (destruct req_body; try discriminate; reflexivity).
  unfold Nodemailer.send_emails, try_catchE, Nodemailer.send_body, bindE, lift.
  rewrite (field_destructurable _ _ _ Hr "recipients").
  rewrite !(prop_defined req_body _ Hd), Hf.
  rewrite (get_prop_is_prop _ _ _ (field_get_prop _ _ _ Hr)).
  cbn [Nodemailer.iterate].
  destruct (send_each_trace T env emailContent rs w)
    as (k & j & res & w' & E & H1 & H2 & H3 & H4 & H5 & H6 & H7).
  rewrite E. exists k, j.
  destruct res as [[]|e|e]; [| |now destruct (H7 e)];
    cbn [snd fst try_catch ret];
    (split; [assumption|]); (split; [assumption|]); (split; [assumption|]);
    (split; [assumption|]); (split; [assumption|]); split.
  - intros _. now apply H6.
  - reflexivity.
  - intros R. discriminate R.
  - intros R. apply H6 in R. discriminate R.
Qed.

Lemma direct_send_goes_in_order_witness :
  exists k j,
    (j <= k)%nat /\ (k <= 3)%nat /\ (k <= S j)%nat
    /\ issued (snd (Nodemailer.send_emails one_then_down sender
                      (send_request (JArr [bob; carol; alice]) (JStr "Done")
                         (JArr [task])) no_world))
       = map (direct_mail sender (nodemailer_page "Done" [task]))
           (firstn k [bob; carol; alice])
    /\ delivered (snd (Nodemailer.send_emails one_then_down sender
                         (send_request (JArr [bob; carol; alice]) (JStr "Done")
                            (JArr [task])) no_world))
       = map (direct_mail sender (nodemailer_page "Done" [task]))
           (firstn j [bob; carol; alice])
    /\ (fst (Nodemailer.send_emails one_then_down sender
               (send_request (JArr [bob; carol; alice]) (JStr "Done")
                  (JArr [task])) no_world)
        = Responded (res_json [("success", JBool true);
                               ("message", JStr "Emails sent successfully")])
        <-> j = 3%nat).
Proof.
  apply (direct_send_goes_in_order one_then_down sender
           (send_request (JArr [bob; carol; alice]) (JStr "Done") (JArr [task]))
           [bob; carol; alice] (nodemailer_page "Done" [task]) no_world);
    reflexivity.
Defined.




Lemma send_each_chars (T : Nodemailer.Transport) (env : Nodemailer.Env)
  (emailContent : string) (s : string) :
  forall w,
    exists new,
      issued (snd (Nodemailer.send_each T env emailContent (chars s) w))
      = (issued w ++ new)%list
      /\ (List.length new <= String.length s)%nat
      /\ Forall (fun m => mail_to m = JUndefined) new.
Proof.
  induction s as [|c s IH]; intros w; cbn [chars Nodemailer.send_each].
  - exists []. simpl. rewrite app_nil_r. repeat split; auto.
  - unfold bindE, lift. cbn [get_prop].
    replace (String.eqb "email" "length") with false by reflexivity.
    unfold Nodemailer.sendMail.
    set (m := Nodemailer.mail_to_recipient env emailContent JUndefined).
    destruct (T (issued w) m) as [x|e]; cbn [run].
    + match goal with
      | |- context [Nodemailer.send_each T env emailContent (chars s) ?w1] =>
          destruct (IH w1) as (new & E & L & F)
      end.
      exists (m :: new). rewrite E. cbn [issued]. rewrite <- app_assoc.
      repeat split; [simpl; lia|constructor; [reflexivity|exact F]].
    + exists [m]. cbn [snd issued]. repeat split; [simpl; lia|].
      constructor; [reflexivity|constructor].
Qed.

(** Recipients given as one string instead of an array are gone through
    character by character in the nodemailer variant: there is at most
    one delivery call per character, and each is addressed to
    [undefined], never to the address the string spells. *)
Theorem string_recipients_reach_nobody :
  forall (T : Nodemailer.Transport) (env : Nodemailer.Env)
         (req_body : JsValue) (s : string) (w : World),
    field req_body "recipients" = Some (JStr s) ->
    exists new,
      issued (snd (Nodemailer.send_emails T env req_body w))
      = (issued w ++ new)%list
      /\ (List.length new <= String.length s)%nat
      /\ Forall (fun m => mail_to m = JUndefined) new.
Proof.
  intros T env req_body s w Hr.
  assert (Z0 : exists new : list Mail,
             issued w = (issued w ++ new)%list
             /\ (List.length new <= String.length s)%nat
             /\ Forall (fun m => mail_to m = JUndefined) new).
  { exists []. rewrite app_nil_r. repeat split; [simpl; lia|constructor]. }
  unfold Nodemailer.send_emails, try_catchE, Nodemailer.send_body, bindE, lift.
  rewrite (field_destructurable _ _ _ Hr "recipients").
  rewrite (field_get_prop _ _ _ Hr).
  destruct (get_prop req_body "summary") as [summary|e|e]; try exact Z0.
  destruct (get_prop req_body "actionItems") as [actionItems|e|e];
    try exact Z0.
  destruct (Nodemailer.formatEmailContent summary actionItems)
    as [content|e|e]; try exact Z0.
  cbn [Nodemailer.iterate].
  destruct (send_each_chars T env content s w) as (new & E & L & F).
  exists new.
  destruct (Nodemailer.send_each T env content (chars s) w) as [[u|e|e] w'];
    cbn [snd fst] in *; repeat split; assumption.
Qed.

Lemma string_recipients_reach_nobody_witness :
  exists new,
    issued (snd (Nodemailer.send_emails accepting sender
                   (send_request (JStr "a@b.io") (JStr "Done") (JArr [task]))
                   no_world))
    = new
    /\ (List.length new <= 6)%nat
    /\ Forall (fun m => mail_to m = JUndefined) new.
Proof.
  apply (string_recipients_reach_nobody accepting sender
           (send_request (JStr "a@b.io") (JStr "Done") (JArr [task]))
           "a@b.io" no_world).
  reflexivity.
Defined.

Lemma get_prop_settles (v : JsValue) (k : string) (e : Error) :
  get_prop v k <> Uncaught e.
Proof.
  destruct v; discriminate.
Qed.

Lemma type_error_settles {A} (r : Result A) :
  (exists x, r = Ok x) \/ type_error r -> forall e, r <> Uncaught e.
Proof.
  intros [[x ->]|(e' & -> & _)] e; discriminate.
Qed.

(** Both dispatch handlers answer every request, whatever the body, the
    services and the log are: the process does not end, no error is left
    to the error middleware, and the answer is either status 200 with
    [success: true] or status 400 or 500 with [success: false]. *)
Theorem dispatch_answers_are_structured :
  forall (gt0 : string -> bool) (P : Resend.Provider)
         (resend : option Resend.Client) (T : Nodemailer.Transport)
         (env : Nodemailer.Env) (req_body : JsValue) (w : World),
    is_responded (fst (Resend.send_emails gt0 P resend req_body w)) = true
    /\ is_responded (fst (Nodemailer.send_emails T env req_body w)) = true.
Proof.
  intros gt0 P resend T env req_body w. split.
  - unfold Resend.send_emails, try_catchE, Resend.send_body, bindE, lift, ret.
    destruct resend as [client|]; [|reflexivity].
    destruct (destructurable "recipients" req_body) as [u|e|e] eqn:D;
      [|reflexivity|destruct req_body; discriminate].
    destruct (get_prop req_body "recipients") as [recipients|e|e] eqn:G1;
      [|reflexivity|now destruct (get_prop_settles _ _ _ G1)].
    destruct (get_prop req_body "summary") as [summary|e|e] eqn:G2;
      [|reflexivity|now destruct (get_prop_settles _ _ _ G2)].
    destruct (get_prop req_body "actionItems") as [actionItems|e|e] eqn:G3;
      [|reflexivity|now destruct (get_prop_settles _ _ _ G3)].
    destruct (Resend.formatEmailContent gt0 summary actionItems recipients)
      as [content|e|e] eqn:F;
      [|reflexivity
       |now destruct (type_error_settles _
                        (resend_format_cases gt0 summary actionItems recipients)
                        e)].
    unfold Resend.emails_send.
    destruct (P (Resend.apiKey client) (issued w) (Resend.test_mail content))
      as [rep|e]; cbn [run]; [|reflexivity].
    destruct (truthy (Resend.error rep)); [|reflexivity].
    destruct (get_prop (Resend.error rep) "message") as [x|e|e] eqn:G4;
      [reflexivity|reflexivity|now destruct (get_prop_settles _ _ _ G4)].
  - unfold Nodemailer.send_emails, try_catchE, Nodemailer.send_body, bindE,
      lift, ret.
    destruct (destructurable "recipients" req_body) as [u|e|e] eqn:D;
      [|reflexivity|destruct req_body; discriminate].
    destruct (get_prop req_body "recipients") as [recipients|e|e] eqn:G1;
      [|reflexivity|now destruct (get_prop_settles _ _ _ G1)].
    destruct (get_prop req_body "summary") as [summary|e|e] eqn:G2;
      [|reflexivity|now destruct (get_prop_settles _ _ _ G2)].
    destruct (get_prop req_body "actionItems") as [actionItems|e|e] eqn:G3;
      [|reflexivity|now destruct (get_prop_settles _ _ _ G3)].
    destruct (Nodemailer.formatEmailContent summary actionItems)
      as [content|e|e] eqn:F;
      [|reflexivity
       |now destruct (type_error_settles _
                        (nodemailer_format_cases summary actionItems) e)].
    destruct (Nodemailer.iterate recipients) as [each|e|e] eqn:I;
      [|reflexivity|destruct recipients; discriminate].
    destruct (send_each_trace T env content each w)
      as (k & j & res & w' & E & _ & _ & _ & _ & _ & _ & H7).
    rewrite E. destruct res as [[]|e|e];
      [reflexivity|reflexivity|now destruct (H7 e)].
Qed.

(** In the Resend variant, recipients given as one non-empty string are
    refused before anything else is looked at: the answer is 500 with
    [recipients.map is not a function] and no delivery call is made. *)
Theorem string_recipients_refused_by_redirect :
  forall (gt0 : string -> bool) (P : Resend.Provider) (client : Resend.Client)
         (req_body : JsValue) (s : string) (w : World),
    field req_body "recipients" = Some (JStr s) ->
    s <> "" ->
    Resend.send_emails gt0 P (Some client) req_body w
    = (Responded (failure 500 (JStr "recipients.map is not a function")), w).
Proof.
  intros gt0 P client req_body s w Hr Hs.
  assert (Hd : defined req_body = true)
    by (destruct req_body; try discriminate; reflexivity).
  apply (resend_refusal gt0 P client req_body w
           (TypeError "recipients.map is not a function") Hd).
  rewrite (get_prop_is_prop _ _ _ (field_get_prop _ _ _ Hr)).
  unfold Resend.formatEmailContent, Resend.recipientsList.
  cbn [get_prop]. replace (String.eqb "length" "length") with true by reflexivity.
  cbn [bind Resend.gt_zero].
  replace (0 <? Z.of_nat (String.length s)) with true; [reflexivity|].
  symmetry. apply Z.ltb_lt. destruct s; [congruence|simpl; lia].
Qed.

Lemma string_recipients_refused_by_redirect_witness :
  Resend.send_emails never_gt0 resend_ok (Some (Resend.mkClient "key"))
    (send_request (JStr "a@b.io") (JStr "Done") (JArr [task])) no_world
  = (Responded (failure 500 (JStr "recipients.map is not a function")),
     no_world).
Proof.
  apply (string_recipients_refused_by_redirect never_gt0 resend_ok
           (Resend.mkClient "key")
           (send_request (JStr "a@b.io") (JStr "Done") (JArr [task]))
           "a@b.io" no_world); [reflexivity|discriminate].
Defined.

(** ** The one question POST /generate-summary asks *)

(** The answer of the handler depends on the provider only through its
    reply to one request, the one built from the [transcript] property of
    the body, which is [undefined] for a body without that property. *)
Theorem summary_depends_on_one_reply :
  forall (parse : JsValue -> Try JsValue)
         (openai1 openai2 : ChatRequest -> Try JsValue) (v : Variant)
         (req_body : JsValue),
    openai1 (chat_request v (prop req_body "transcript"))
    = openai2 (chat_request v (prop req_body "transcript")) ->
    generate_summary parse openai1 v req_body
    = generate_summary parse openai2 v req_body.
Proof.
  intros parse o1 o2 v req_body H. unfold generate_summary, summary_body.
  destruct (defined req_body) eqn:D.
  - replace (destructurable "transcript" req_body) with (Ok tt)
      by (destruct req_body; try discriminate; reflexivity).
    cbn [bind]. rewrite (prop_defined req_body "transcript" D). cbn [bind].
    now rewrite H.
  - destruct req_body; try discriminate; reflexivity.
Qed.

Lemma summary_depends_on_one_reply_witness :
  generate_summary JSON_parse empty_object_reply ResendVariant (JObj [])
  = generate_summary JSON_parse
      (fun r => if String.eqb (content (nth 1 (messages r) (mkMessage "" "")))
                     (prompt JUndefined)
                then Returns (completion_with (JStr "{}"))
                else Raises (mkError "Error" "unexpected request"))
      ResendVariant (JObj []).
Proof.
  apply (summary_depends_on_one_reply JSON_parse empty_object_reply
           (fun r => if String.eqb (content (nth 1 (messages r) (mkMessage "" "")))
                          (prompt JUndefined)
                     then Returns (completion_with (JStr "{}"))
                     else Raises (mkError "Error" "unexpected request"))
           ResendVariant (JObj [])).
  vm_compute. reflexivity.
Defined.

(** ** More on the names POST /upload recognises *)

(** A file whose name ends, after a character that is no separator, in
    [.csv] written in any mix of cases, and whose rows can be read and
    parsed, adds one contacts entry with its name as uploaded and the
    rows of the parser. *)
Theorem upload_parses_contacts_in_any_case :
  forall (S : Storage) (f : File) (rest : list File)
         (processedFiles : list JsValue) (b0 : string) (c : ascii)
         (e bytes : string) (rows : list JsValue),
    originalname f = b0 ++ String c (String "." e) ->
    is_slash c = false ->
    eq_ignore_case e "csv" = true ->
    readFile S (path f) = Returns bytes ->
    csv S bytes = Returns rows ->
    process_files S (f :: rest) processedFiles
    = process_files S rest
        (processedFiles
         ++ [processed (originalname f) "contacts" (JArr rows)])%list.
Proof.
  intros S f rest acc b0 c e bytes rows Hn Hc He Hr Hp.
  destruct (classify_by_suffix b0 c e Hc) as [_ K]. specialize (K He).
  rewrite <- Hn in K. unfold classify in K.
  cbn [process_files]. rewrite !toLowerCase_eq_ignore_case by reflexivity.
  destruct (eq_ignore_case (extname (originalname f)) ".txt"); [discriminate|].
  destruct (eq_ignore_case (extname (originalname f)) ".csv"); [|discriminate].
  unfold parseCSV. rewrite Hr, Hp. reflexivity.
Qed.

Lemma upload_parses_contacts_in_any_case_witness :
  process_files disk (mkFile "team.csv" "uploads/2-team.csv" :: []) []
  = Ok [processed "team.csv" "contacts" (JArr [])].
Proof.
  apply (upload_parses_contacts_in_any_case disk
           (mkFile "team.csv" "uploads/2-team.csv") [] [] "tea" "m" "csv"
           "name,email" []); reflexivity.
Defined.

(** Only the last extension of a name counts: a file whose name ends in a
    dot and a non-empty run of characters without dot or separator that
    is neither [txt] nor [csv] in any case is skipped and not read, also
    when the name has [.txt] or [.csv] before that. *)
Theorem upload_skips_other_extensions :
  forall (S : Storage) (f : File) (rest : list File)
         (processedFiles : list JsValue) (b0 : string) (c : ascii)
         (e : string),
    originalname f = b0 ++ String c (String "." e) ->
    is_slash c = false ->
    plain e = true ->
    e <> "" ->
    eq_ignore_case e "txt" = false ->
    eq_ignore_case e "csv" = false ->
    process_files S (f :: rest) processedFiles
    = process_files S rest processedFiles.
Proof.
  intros S f rest acc b0 c e Hn Hc Hp He Ht Hv. cbn [process_files].
  rewrite !toLowerCase_eq_ignore_case by reflexivity.
  rewrite Hn, (extname_of_suffix b0 c e Hc Hp He).
  cbn [eq_ignore_case]. rewrite Ht, Hv. now rewrite !andb_false_r.
Qed.

Lemma upload_skips_other_extensions_witness :
  process_files broken_disk
    (mkFile "notes.txt.bak" "uploads/1-notes.txt.bak" :: []) []
  = Ok [].
Proof.
  apply (upload_skips_other_extensions broken_disk
           (mkFile "notes.txt.bak" "uploads/1-notes.txt.bak") [] []
           "notes.tx" "t" "bak"); try reflexivity. discriminate.
Defined.
